(** * trade: the position accumulator and the commission proration

    A shallow embedding of [trade/accumulator.py] (class [Accumulator]) and
    of [trade/plugins/prorate.py] (function [prorate_commissions_by_position]).

    Modelling choices.
    - Numbers.  Quantities, prices and results are Python numbers.  The
      development computes on them exactly, as canonical rationals [Qc],
      whose equality is Leibniz equality; Python's [/] raises
      [ZeroDivisionError] on a zero divisor: see [truediv].  A Python [float]
      rounds where [Qc] does not, so a property of a computed price is stated
      with the expression of the code, in the order of the code; module
      [Binary64] has the quantity and the price that [accumulate] commits on
      binary64 floats, for the input on which the two arithmetics part.
    - Dictionaries.  A [dict] with string keys is a [gmap string Qc].  The
      result dictionaries are Python objects that the caller, the accumulator
      and the log may share: they live in a [heap] and are named by
      references.
    - Effects.  A method is a function from the world (heap and accumulator
      object) to an outcome (a value or a raised exception) and the world as
      the method leaves it: what was mutated before a [raise] stays mutated. *)

From stdpp Require Import base numbers strings list gmap fin_maps.
From Stdlib Require Import QArith Qcanon Qcabs Field.
From Stdlib Require PrimFloat.

Local Open Scope Qc_scope.

(** ** Python values *)

(** A date is a string ['YYYY-mm-dd'] or Python's [None]. *)
Definition Date : Type := option string.

(** The exceptions the modelled code can raise.  The key of a [KeyError] is
    a string or [None] (dates are dictionary keys, too). *)
Inductive exn : Type :=
  | KeyError (key : option string)
  | ZeroDivisionError.

#[global] Instance exn_eq_dec : EqDecision exn.
Proof. solve_decision. Defined.

(** [if x:] on a number. *)
Definition truthy (x : Qc) : bool := bool_decide (x ≠ 0).

(** [x / y] (true division), as the exact quotient; [Binary64.truediv] is
    the rounded quotient of two floats. *)
Definition truediv (x y : Qc) : exn + Qc :=
  if decide (y = 0) then inl ZeroDivisionError else inr (x / y).

(** ** trade/utils.py *)

Module Utils.

(** Modelled from the spec: [same_sign] of [trade/utils.py], which
    [accumulator.py] imports and which is not among the sources.  The spec
    (4.1, step 2): the two numbers have the same sign, and "a zero value is
    considered same-sign-compatible with anything". *)
Definition same_sign (x y : Qc) : bool :=
  bool_decide (x = 0) || bool_decide (y = 0)
  || (bool_decide (0 < x) && bool_decide (0 < y))
  || (bool_decide (x < 0) && bool_decide (y < 0)).

(** Modelled from the spec: [average_price] of [trade/utils.py], not among
    the sources.  The spec (4.1, step 2): the weighted average
    [(current_quantity*current_price + quantity*price) / new_quantity], where
    [new_quantity] is the sum of the two quantities. *)
Definition average_price (quantity_1 price_1 quantity_2 price_2 : Qc) : exn + Qc :=
  truediv (quantity_1 * price_1 + quantity_2 * price_2) (quantity_1 + quantity_2).

End Utils.

(** ** The objects *)

(** A reference to a dictionary object. *)
Definition ref : Type := positive.

(** One entry of a date's ['operations'] list; ['results'] is the dictionary
    object that was passed to (or created by) [accumulate], not a copy. *)
Record OperationEntry : Type := mkOperationEntry {
  op_quantity : Qc;
  op_price : Qc;
  op_results : ref
}.

(** The record of one date in the log: a dictionary whose keys ['position'],
    ['operations'] and ['events'] may each be absent. *)
Record LogRecord : Type := mkLogRecord {
  position : option (Qc * Qc);
  operations : option (list OperationEntry);
  events : option (list string)
}.

Record Accumulator : Type := mkAccumulator {
  asset : string;
  date : Date;
  quantity : Qc;
  price : Qc;
  results : ref;
  logging : bool;
  log : gmap Date LogRecord
}.

(** [initial_status], when it is given: a dictionary with the four keys. *)
Record InitialStatus : Type := mkInitialStatus {
  is_date : Date;
  is_quantity : Qc;
  is_price : Qc;
  is_results : ref
}.

(** The world: the dictionary objects and the accumulator. *)
Record World : Type := mkWorld {
  heap : gmap ref (gmap string Qc);
  self : Accumulator
}.

Definition set_heap (w : World) (h : gmap ref (gmap string Qc)) : World :=
  {| heap := h; self := self w |}.

Definition set_quantity (a : Accumulator) (q : Qc) : Accumulator :=
  {| asset := asset a; date := date a; quantity := q; price := price a;
     results := results a; logging := logging a; log := log a |}.

Definition set_price (a : Accumulator) (p : Qc) : Accumulator :=
  {| asset := asset a; date := date a; quantity := quantity a; price := p;
     results := results a; logging := logging a; log := log a |}.

Definition set_log (a : Accumulator) (l : gmap Date LogRecord) : Accumulator :=
  {| asset := asset a; date := date a; quantity := quantity a; price := price a;
     results := results a; logging := logging a; log := l |}.

Definition set_position (r : LogRecord) (p : Qc * Qc) : LogRecord :=
  {| position := Some p; operations := operations r; events := events r |}.

Definition set_operations (r : LogRecord) (l : list OperationEntry) : LogRecord :=
  {| position := position r; operations := Some l; events := events r |}.

(** ** Methods as state transformers that may raise *)

Definition M (A : Type) : Type := World → (exn + A) * World.

#[global] Instance M_ret : MRet M := λ A (a : A) w, (inr a, w).

#[global] Instance M_bind : MBind M := λ A B (f : A → M B) (m : M A) w,
  match m w with
  | (inl e, w') => (inl e, w')
  | (inr a, w') => f a w'
  end.

Definition raise {A} (e : exn) : M A := λ w, (inl e, w).

(** Reading an attribute of [self], and mutating [self]. *)
Definition gets {A} (f : Accumulator → A) : M A := λ w, (inr (f (self w)), w).

Definition modify (f : Accumulator → Accumulator) : M unit :=
  λ w, (inr tt, {| heap := heap w; self := f (self w) |}).

(** Raising what a pure computation raised. *)
Definition lift {A} (x : exn + A) : M A :=
  match x with inl e => raise e | inr a => mret a end.

(** [{...}]: a new dictionary object. *)
Definition new_dict (d : gmap string Qc) : M ref := λ w,
  let r := fresh (dom (heap w)) in (inr r, set_heap w (<[r := d]> (heap w))).

(** [key in d] *)
Definition dict_contains (r : ref) (key : string) : M bool := λ w,
  (inr (bool_decide (is_Some ((heap w !!! r) !! key))), w).

(** [d[key]] *)
Definition dict_getitem (r : ref) (key : string) : M Qc := λ w,
  match (heap w !!! r) !! key with
  | Some v => (inr v, w)
  | None => (inl (KeyError (Some key)), w)
  end.

(** [d[key] = v] *)
Definition dict_setitem (r : ref) (key : string) (v : Qc) : M unit := λ w,
  (inr tt, set_heap w (<[r := <[key := v]> (heap w !!! r)]> (heap w))).

(** [d.items()].  Python iterates in insertion order; the order of the list
    here is that of the map's keys.  The loop below adds to the entry of each
    key once, so its result does not depend on the order. *)
Definition dict_items (r : ref) : M (list (string * Qc)) := λ w,
  (inr (map_to_list (heap w !!! r)), w).

(** [for x in l: body] *)
Fixpoint for_each {A} (l : list A) (body : A → M unit) : M unit :=
  match l with
  | [] => mret tt
  | x :: l' => body x ;; for_each l' body
  end.

(** [self.log[date]] *)
Definition log_getitem (d : Date) : M LogRecord := λ w,
  match log (self w) !! d with
  | Some r => (inr r, w)
  | None => (inl (KeyError d), w)
  end.

(** [self.log[date] = r], and the writes through [self.log[date][...]]. *)
Definition log_setitem (d : Date) (r : LogRecord) : M unit :=
  modify (λ a, set_log a (<[d := r]> (log a))).

(** ** class Accumulator *)

(** [Accumulator.__init__(self, asset, initial_status=None, logging=False)].
    [if initial_status:] holds for a dictionary with the four keys. *)
Definition init (h : gmap ref (gmap string Qc)) (asset0 : string)
    (initial_status : option InitialStatus) (logging0 : bool) : World :=
  match initial_status with
  | Some st =>
      {| heap := h;
         self := {| asset := asset0; date := is_date st;
                    quantity := is_quantity st; price := is_price st;
                    results := is_results st;
                    logging := logging0; log := ∅ |} |}
  | None =>
      let r := fresh (dom h) in
      {| heap := <[r := {["trades" := 0]}]> h;
         self := {| asset := asset0; date := None;
                    quantity := 0; price := 0;
                    results := r;
                    logging := logging0; log := ∅ |} |}
  end.

(** [Accumulator.log_operation(self, quantity, price, date, results)] *)
Definition log_operation (quantity0 price0 : Qc) (date0 : Date) (results0 : ref)
    : M unit :=
  lg ← gets log;
  (if decide (lg !! date0 = None)
   then log_setitem date0
          {| position := None; operations := Some []; events := None |}
   else mret tt);;
  q ← gets quantity;
  p ← gets price;
  rec ← log_getitem date0;
  log_setitem date0 (set_position rec (q, p));;
  rec ← log_getitem date0;
  match operations rec with
  | None => raise (KeyError (Some "operations"))
  | Some ops =>
      log_setitem date0
        (set_operations rec
           (ops ++ [{| op_quantity := quantity0; op_price := price0;
                       op_results := results0 |}]))
  end.

(** The body of the loop [for key, value in results.items():] of
    [accumulate]. *)
Definition add_result (self_results : ref) (item : string * Qc) : M unit :=
  let '(key, value) := item in
  present ← dict_contains self_results key;
  (if present : bool then mret tt else dict_setitem self_results key 0);;
  old ← dict_getitem self_results key;
  dict_setitem self_results key (old + value).

(** [Accumulator.accumulate(self, quantity, price, date=None, results=None)] *)
Definition accumulate (quantity0 price0 : Qc) (date0 : Date)
    (results0 : option ref) : M unit :=
  self_quantity ← gets quantity;
  self_price ← gets price;
  let new_quantity := self_quantity + quantity0 in
  results1 ← match results0 with
             | None => new_dict {["trades" := 0]}
             | Some r => mret r
             end;
  new_price ←
    (if Utils.same_sign self_quantity quantity0 then
       if truthy new_quantity
       then lift (Utils.average_price self_quantity self_price quantity0 price0)
       else mret 0
     else if bool_decide (self_quantity ≠ 0) then
       let new_price :=
         if Utils.same_sign self_quantity new_quantity
         then self_price else price0 in
       trades ← dict_getitem results1 "trades";
       dict_setitem results1 "trades"
         (trades + (Qcabs quantity0 * price0 - Qcabs quantity0 * self_price));;
       mret new_price
     else mret price0);
  modify (λ a, set_quantity a new_quantity);;
  modify (λ a, set_price a (if truthy new_quantity then new_price else 0));;
  items ← dict_items results1;
  self_results ← gets results;
  for_each items (add_result self_results);;
  is_logging ← gets logging;
  if is_logging : bool
  then log_operation quantity0 price0 date0 results1
  else mret tt.

(** The attributes that [accumulate_operation] reads of an operation. *)
Record TradeOperation : Type := mkTradeOperation {
  operation_quantity : Qc;
  operation_real_price : Qc;
  operation_date : Date
}.

(** [Accumulator.accumulate_operation(self, operation)] *)
Definition accumulate_operation (operation : TradeOperation) : M unit :=
  accumulate (operation_quantity operation) (operation_real_price operation)
    (operation_date operation) None.

(** [class Event]: a name, a date and the method [update_portfolio(quantity,
    price, results)], which receives the accumulator's results dictionary
    itself and returns the new quantity and price. *)
Record Event : Type := mkEvent {
  event_name : string;
  event_date : Date;
  update_portfolio : Qc → Qc → ref → M (Qc * Qc)
}.

(** The body of [Event.update_portfolio]: [return quantity, price]. *)
Definition base_update_portfolio (quantity0 price0 : Qc) (results0 : ref)
    : M (Qc * Qc) :=
  mret (quantity0, price0).

Definition set_events (r : LogRecord) (l : list string) : LogRecord :=
  {| position := position r; operations := operations r; events := Some l |}.

(** [Accumulator.log_event(self, event)]; an entry [{'name': name}] is kept
    as the name. *)
Definition log_event (event : Event) : M unit :=
  lg ← gets log;
  match lg !! event_date event with
  | None =>
      log_setitem (event_date event)
        {| position := None; operations := None; events := Some [] |}
  | Some rec =>
      if decide (events rec = None)
      then log_setitem (event_date event) (set_events rec [])
      else mret tt
  end;;
  q ← gets quantity;
  p ← gets price;
  rec ← log_getitem (event_date event);
  log_setitem (event_date event) (set_position rec (q, p));;
  rec ← log_getitem (event_date event);
  match events rec with
  | None => raise (KeyError (Some "events"))
  | Some evs =>
      log_setitem (event_date event) (set_events rec (evs ++ [event_name event]))
  end.

(** [Accumulator.accumulate_event(self, event)] *)
Definition accumulate_event (event : Event) : M unit :=
  self_quantity ← gets quantity;
  self_price ← gets price;
  self_results ← gets results;
  new ← update_portfolio event self_quantity self_price self_results;
  modify (λ a, set_quantity a new.1);;
  modify (λ a, set_price a new.2);;
  is_logging ← gets logging;
  if is_logging : bool then log_event event else mret tt.

(** A sequence of calls to [accumulate] on the same accumulator.  A caller
    may catch what a call raises and go on: the next call starts from the
    world the previous one left. *)
Record Call : Type := mkCall {
  call_quantity : Qc;
  call_price : Qc;
  call_date : Date;
  call_results : option ref
}.

Definition accumulate_call (c : Call) : M unit :=
  accumulate (call_quantity c) (call_price c) (call_date c) (call_results c).

Definition run (calls : list Call) (w : World) : World :=
  foldl (λ w c, (accumulate_call c w).2) w calls.

(** What the accumulator holds: its results dictionary, read through the
    reference. *)
Definition results_of (w : World) : gmap string Qc :=
  heap w !!! results (self w).

(** ** Closed forms of the steps of [accumulate]

    The definitions below are what the lemmas of the next part prove the
    monadic code above to compute ([accumulate_spec]); they serve the proofs. *)

(** The effect of one iteration of the merging loop on the heap. *)
Definition add_result_heap (sr : ref) (h : gmap ref (gmap string Qc))
    (item : string * Qc) : gmap ref (gmap string Qc) :=
  <[sr := <[item.1 := default 0 ((h !!! sr) !! item.1) + item.2]> (h !!! sr)]> h.

(** The effect of the whole loop: the items of [r] added into [sr]. *)
Definition merge_into (sr r : ref) (h : gmap ref (gmap string Qc))
    : gmap ref (gmap string Qc) :=
  foldl (add_result_heap sr) h (map_to_list (h !!! r)).

(** The dictionary that results from adding the items of [m] into [d]. *)
Definition merged (d m : gmap string Qc) : gmap string Qc :=
  merge (λ x y, match y with
                | Some v => Some (default 0 x + v)
                | None => x
                end) d m.

(** The dictionary that [accumulate] uses as [results], and the heap once it
    exists: the one passed or, for [None], a new [{'trades': 0}]. *)
Definition resolve (results0 : option ref) (h : gmap ref (gmap string Qc))
    : ref * gmap ref (gmap string Qc) :=
  match results0 with
  | Some r => (r, h)
  | None => (fresh (dom h), <[fresh (dom h) := {["trades" := 0]}]> h)
  end.

(** The trade opposes a held position: the [elif] branch is taken. *)
Definition opposing (q quantity0 : Qc) : bool :=
  negb (Utils.same_sign q quantity0) && bool_decide (q ≠ 0).

(** [abs(quantity)*price - abs(quantity)*self.price] *)
Definition realized (quantity0 price0 p : Qc) : Qc :=
  Qcabs quantity0 * price0 - Qcabs quantity0 * p.

(** The value of the local variable [new_price]. *)
Definition new_price_of (q p quantity0 price0 : Qc) : Qc :=
  if Utils.same_sign q quantity0 then
    if truthy (q + quantity0)
    then (q * p + quantity0 * price0) / (q + quantity0) else 0
  else if bool_decide (q ≠ 0) then
    if Utils.same_sign q (q + quantity0) then p else price0
  else price0.

(** The assignments to [self.quantity] and [self.price]. *)
Definition commit (a : Accumulator) (new_quantity new_price : Qc) : Accumulator :=
  set_price (set_quantity a new_quantity)
    (if truthy new_quantity then new_price else 0).

(** [{'operations': []}] *)
Definition new_record : LogRecord :=
  {| position := None; operations := Some []; events := None |}.

Definition with_log (w : World) (l : gmap Date LogRecord) : World :=
  {| heap := heap w; self := set_log (self w) l |}.

(** The record of [date0] once [log_operation] has written the position. *)
Definition positioned (w : World) (date0 : Date) : LogRecord :=
  set_position
    (default {| position := None; operations := Some []; events := None |}
       (log (self w) !! date0))
    (quantity (self w), price (self w)).

Definition log_operation_result (quantity0 price0 : Qc) (date0 : Date)
    (results0 : ref) (w : World) : (exn + unit) * World :=
  let rec := positioned w date0 in
  match operations rec with
  | None =>
      (inl (KeyError (Some "operations")),
       with_log w (<[date0 := rec]> (log (self w))))
  | Some ops =>
      (inr tt,
       with_log w
         (<[date0 := set_operations rec
                       (ops ++ [mkOperationEntry quantity0 price0 results0])]>
            (log (self w))))
  end.

(** [accumulate] from the commit on, when [results] is the dictionary [r]. *)
Definition finish (quantity0 price0 : Qc) (date0 : Date) (r : ref)
    (new_quantity new_price : Qc) (w : World) : (exn + unit) * World :=
  let w' := {| heap := merge_into (results (self w)) r (heap w);
               self := commit (self w) new_quantity new_price |} in
  if logging (self w) then log_operation_result quantity0 price0 date0 r w'
  else (inr tt, w').

Definition accumulate_result (quantity0 price0 : Qc) (date0 : Date)
    (results0 : option ref) (w : World) : (exn + unit) * World :=
  let q := quantity (self w) in
  let p := price (self w) in
  let r := (resolve results0 (heap w)).1 in
  let h := (resolve results0 (heap w)).2 in
  let fin := finish quantity0 price0 date0 r (q + quantity0)
               (new_price_of q p quantity0 price0) in
  if opposing q quantity0 then
    match (h !!! r) !! "trades" with
    | None => (inl (KeyError (Some "trades")), set_heap w h)
    | Some t =>
        fin (set_heap w
               (<[r := <["trades" := t + realized quantity0 price0 p]> (h !!! r)]> h))
    end
  else fin (set_heap w h).

(** ** Reading the log

    What an observer of [self.log[date]] sees: each entry of ['operations']
    with the contents that its results dictionary has at the time of the
    observation. *)

Record EntryView : Type := mkEntryView {
  ev_quantity : Qc;
  ev_price : Qc;
  ev_results : gmap string Qc
}.

Definition view (h : gmap ref (gmap string Qc)) (e : OperationEntry) : EntryView :=
  {| ev_quantity := op_quantity e; ev_price := op_price e;
     ev_results := h !!! op_results e |}.

Definition logged_operations (w : World) (d : Date) : list EntryView :=
  match log (self w) !! d with
  | Some rec => view (heap w) <$> default [] (operations rec)
  | None => []
  end.

Definition logged_position (w : World) (d : Date) : option (Qc * Qc) :=
  log (self w) !! d ≫= position.

(** Two calls of [accumulate] with the date of [c1], both returning: the
    date's record holds the entry of the first call after the first call, the
    same entry followed by the entry of the second call after the second,
    and the position that the second call committed; the date is the only
    key that the log gained. *)
Definition log_append_only (w : World) (c1 c2 : Call) : Prop :=
  ∀ w1 w2,
    accumulate_call c1 w = (inr tt, w1) →
    accumulate_call c2 w1 = (inr tt, w2) →
    ∃ e1 e2 : EntryView,
      logged_operations w1 (call_date c1) = [e1]%list
      ∧ logged_operations w2 (call_date c1) = [e1; e2]%list
      ∧ ev_quantity e1 = call_quantity c1 ∧ ev_price e1 = call_price c1
      ∧ ev_quantity e2 = call_quantity c2 ∧ ev_price e2 = call_price c2
      ∧ logged_position w2 (call_date c1)
        = Some (quantity (self w2), price (self w2))
      ∧ dom (log (self w2)) = {[call_date c1]} ∪ dom (log (self w)).

(** The dictionaries involved are objects of the heap, the one passed to the
    first call is not the accumulator's own, and the one passed to the second
    call is not the one passed to the first. *)
Definition separate_results (w : World) (c1 c2 : Call) : Prop :=
  results (self w) ∈ dom (heap w)
  ∧ (∀ r, call_results c1 = Some r → r ∈ dom (heap w) ∧ r ≠ results (self w))
  ∧ (∀ r, call_results c2 = Some r →
          r ∈ dom (heap w) ∧ call_results c1 ≠ Some r).

(** ** trade/plugins/prorate.py *)

Module Prorate.

(** The attributes that the function reads of the container, and of the
    operation (or position).  [volume] is read as an attribute, whatever
    computes it. *)
Record Container : Type := mkContainer {
  container_volume : Qc;
  container_commissions : gmap string Qc
}.

Record Operation : Type := mkOperation {
  volume : Qc;
  commissions : gmap string Qc
}.

(** The loop [for key, value in container.commissions.items():], on the
    operation's [commissions]. *)
Fixpoint prorate_items (items : list (string * Qc)) (percent : Qc)
    (commissions0 : gmap string Qc) : exn + gmap string Qc :=
  match items with
  | [] => inr commissions0
  | (key, value) :: items' =>
      match truediv (value * percent) (Qc_of_Z 100) with
      | inl e => inl e
      | inr v => prorate_items items' percent (<[key := v]> commissions0)
      end
  end.

(** [prorate_commissions_by_position(container, operation)]; the result is
    the operation as the call leaves it. *)
Definition prorate_commissions_by_position (container : Container)
    (operation : Operation) : exn + Operation :=
  if bool_decide (volume operation ≠ 0)
     && bool_decide (container_volume container ≠ 0)
  then
    match truediv (volume operation) (container_volume container) with
    | inl e => inl e
    | inr ratio =>
        let percent := ratio * Qc_of_Z 100 in
        match prorate_items (map_to_list (container_commissions container))
                percent (commissions operation) with
        | inl e => inl e
        | inr commissions' =>
            inr {| volume := volume operation; commissions := commissions' |}
        end
    end
  else inr operation.

(** [for x in l: f(x)], where [f] updates [x] and may raise. *)
Fixpoint for_each_update {A} (f : A → exn + A) (l : list A) : exn + list A :=
  match l with
  | [] => inr []
  | x :: l' =>
      match f x with
      | inl e => inl e
      | inr x' =>
          match for_each_update f l' with
          | inl e => inl e
          | inr l'' => inr (x' :: l'')
          end
      end
  end.

(** A position of the container: the flag [update_position], its own volume
    and commissions (it is passed to [prorate_commissions_by_position] like
    an operation), and its operations. *)
Record Position : Type := mkPosition {
  update_position : bool;
  position_self : Operation;
  position_operations : list Operation
}.

(** The body of the inner loop of [prorate_commissions]. *)
Definition prorate_position (container : Container) (position : Position)
    : exn + Position :=
  if update_position position then
    match prorate_commissions_by_position container (position_self position) with
    | inl e => inl e
    | inr self' =>
        inr {| update_position := update_position position;
               position_self := self';
               position_operations := position_operations position |}
    end
  else
    match for_each_update (prorate_commissions_by_position container)
            (position_operations position) with
    | inl e => inl e
    | inr operations' =>
        inr {| update_position := update_position position;
               position_self := position_self position;
               position_operations := operations' |}
    end.

(** [prorate_commissions(container)].  [positions] is what the loops visit:
    the values of the dictionaries that are the values of
    [container.positions]; the result is the positions as the call leaves
    them. *)
Definition prorate_commissions (container : Container)
    (positions : list (list Position)) : exn + list (list Position) :=
  for_each_update (for_each_update (prorate_position container)) positions.

(** The operation that [prorate_commissions_by_position] leaves
    ([prorate_commissions_by_position_spec]). *)
Definition prorated (container : Container) (operation : Operation) : Operation :=
  if bool_decide (volume operation ≠ 0)
     && bool_decide (container_volume container ≠ 0)
  then
    {| volume := volume operation;
       commissions :=
         ((λ value, value * (volume operation / container_volume container
                             * Qc_of_Z 100) / Qc_of_Z 100)
            <$> container_commissions container)
         ∪ commissions operation |}
  else operation.

Definition prorated_position (container : Container) (position : Position)
    : Position :=
  if update_position position then
    {| update_position := true;
       position_self := prorated container (position_self position);
       position_operations := position_operations position |}
  else
    {| update_position := false;
       position_self := position_self position;
       position_operations :=
         prorated container <$> position_operations position |}.

End Prorate.

(** ** The position on binary64 floats

    A Python [float] is an IEEE 754 binary64 number.  [accumulate_position]
    is the statements of [Accumulator.accumulate] that compute what is
    assigned to [self.quantity] and [self.price] (accumulator.py l.176-232),
    for a call with [results] left out, so that [results['trades']] exists.
    [nan] and the infinities are not quantities or prices. *)

Module Binary64.

Import PrimFloat.
Local Open Scope float_scope.

(** [if x:] and [x / y] on floats. *)
Definition truthy (x : float) : bool := negb (x =? 0).

Definition truediv (x y : float) : exn + float :=
  if y =? 0 then inl ZeroDivisionError else inr (x / y).

(** Modelled from the spec: [same_sign] of [trade/utils.py], as
    [Utils.same_sign]. *)
Definition same_sign (x y : float) : bool :=
  (x =? 0) || (y =? 0) || ((0 <? x) && (0 <? y)) || ((x <? 0) && (y <? 0)).

(** Modelled from the spec: [average_price] of [trade/utils.py], as
    [Utils.average_price]. *)
Definition average_price (quantity_1 price_1 quantity_2 price_2 : float)
    : exn + float :=
  truediv (quantity_1 * price_1 + quantity_2 * price_2)
    (quantity_1 + quantity_2).



End Binary64.

(** ** Sample worlds and calls *)

Module Sample.

(** Two dictionaries of a caller: [{'trades': 0}] and [{'daytrade': 50}]. *)
Definition caller_heap : gmap ref (gmap string Qc) :=
  {[ 1%positive := {["trades" := 0]};
     2%positive := {["daytrade" := Qc_of_Z 50]} ]}.

(** [Accumulator(asset)] and [Accumulator(asset, logging=True)]. *)
Definition flat (logging0 : bool) : World :=
  init caller_heap "ASSET" None logging0.

(** An accumulator seeded with 100 units at the price 10 and with a results
    dictionary of its own, [{'trades': 0}]. *)
Definition long_heap : gmap ref (gmap string Qc) :=
  <[3%positive := {["trades" := 0]}]> caller_heap.

Definition long_status : InitialStatus :=
  {| is_date := Some "2019-12-30"; is_quantity := Qc_of_Z 100;
     is_price := Qc_of_Z 10; is_results := 3%positive |}.

Definition long (logging0 : bool) : World :=
  init long_heap "ASSET" (Some long_status) logging0.

(** An accumulator seeded with the results dictionary [{'daytrade': 50}]. *)
Definition daytrade_status : InitialStatus :=
  {| is_date := Some "2019-12-30"; is_quantity := Qc_of_Z 100;
     is_price := Qc_of_Z 10; is_results := 2%positive |}.

Definition seeded_daytrade : World :=
  init caller_heap "ASSET" (Some daytrade_status) false.

Definition buy_10_at_100 : Call :=
  {| call_quantity := Qc_of_Z 10; call_price := Qc_of_Z 100;
     call_date := Some "2020-01-01"; call_results := None |}.

Definition sell_10_at_110 : Call :=
  {| call_quantity := Qc_of_Z (-10); call_price := Qc_of_Z 110;
     call_date := Some "2020-01-02"; call_results := None |}.

Definition buy_30_at_20 : Call :=
  {| call_quantity := Qc_of_Z 30; call_price := Qc_of_Z 20;
     call_date := Some "2020-01-02"; call_results := None |}.

(** [accumulate(-40, 15, '2020-01-02', results)] with the caller's
    dictionary [{'trades': 0}] as [results]. *)
Definition sell_40_at_15_shared : Call :=
  {| call_quantity := Qc_of_Z (-40); call_price := Qc_of_Z 15;
     call_date := Some "2020-01-02"; call_results := Some 1%positive |}.

(** An event of the date of [buy_10_at_100] that changes nothing. *)
Definition event_2020_01_01 : Event :=
  {| event_name := "split"; event_date := Some "2020-01-01";
     update_portfolio := base_update_portfolio |}.

Definition sell_40_at_15 : Call :=
  {| call_quantity := Qc_of_Z (-40); call_price := Qc_of_Z 15;
     call_date := Some "2020-01-02"; call_results := None |}.

End Sample.

(** * Properties *)

(** ** The loop that merges the results *)

Ltac unfold_M :=
  unfold mbind, M_bind, mret, M_ret, raise, gets, modify, lift, new_dict,
    dict_contains, dict_getitem, dict_setitem, dict_items, log_getitem,
    log_setitem, set_heap in *.

(** Equations between closed rationals. *)
Ltac qc_eval := apply Qc_is_canon; vm_compute; reflexivity.

Lemma set_heap_id w : set_heap w (heap w) = w.
Proof. by destruct w. Qed.

Lemma add_result_spec sr item w :
  add_result sr item w = (inr tt, set_heap w (add_result_heap sr (heap w) item)).
Proof.
  destruct item as [k v]. unfold add_result, add_result_heap. unfold_M. simpl.
  destruct ((heap w !!! sr) !! k) as [old|] eqn:Hk.
  - rewrite bool_decide_eq_true_2 by eauto. simpl. by rewrite Hk.
  - rewrite bool_decide_eq_false_2 by (intros [? ?]; congruence). simpl.
    rewrite lookup_total_insert_eq, lookup_insert_eq. simpl.
    by rewrite lookup_total_insert_eq, !insert_insert_eq.
Qed.

Lemma for_each_add_result sr l w :
  for_each l (add_result sr) w
  = (inr tt, set_heap w (foldl (add_result_heap sr) (heap w) l)).
Proof.
  revert w. induction l as [|item l IH]; intros w; simpl.
  - by rewrite set_heap_id.
  - unfold mbind, M_bind. rewrite add_result_spec, IH. by destruct w.
Qed.

Lemma add_result_heap_other sr h item r :
  r ≠ sr → add_result_heap sr h item !! r = h !! r.
Proof. intros. unfold add_result_heap. by rewrite lookup_insert_ne. Qed.

Lemma foldl_add_result_other sr l h r :
  r ≠ sr → foldl (add_result_heap sr) h l !! r = h !! r.
Proof.
  revert h. induction l as [|item l IH]; intros h Hr; simpl; [done|].
  by rewrite IH, add_result_heap_other.
Qed.

Lemma foldl_add_result_self sr l h k :
  NoDup l.*1 →
  (foldl (add_result_heap sr) h l !!! sr) !! k
  = match (list_to_map l : gmap string Qc) !! k with
    | Some v => Some (default 0 ((h !!! sr) !! k) + v)
    | None => (h !!! sr) !! k
    end.
Proof.
  revert h. induction l as [|[k' v'] l IH]; intros h Hnd; simpl.
  - by rewrite lookup_empty.
  - apply NoDup_cons in Hnd as [Hk' Hnd]. rewrite IH by done.
    unfold add_result_heap at 1 2. simpl. rewrite lookup_total_insert_eq.
    destruct (decide (k' = k)) as [->|Hne].
    + rewrite !lookup_insert_eq.
      by rewrite (not_elem_of_list_to_map_1 _ _ Hk').
    + by rewrite !lookup_insert_ne by done.
Qed.

Lemma foldl_add_result_dom sr l h r :
  r ∈ dom h → r ∈ dom (foldl (add_result_heap sr) h l).
Proof.
  revert h. induction l as [|item l IH]; intros h Hr; simpl; [done|].
  apply IH. unfold add_result_heap. rewrite dom_insert_L. set_solver.
Qed.

Lemma merge_into_self sr r h :
  merge_into sr r h !!! sr = merged (h !!! sr) (h !!! r).
Proof.
  apply map_eq. intros k. unfold merge_into, merged.
  rewrite foldl_add_result_self by apply NoDup_fst_map_to_list.
  rewrite list_to_map_to_list, lookup_merge.
  destruct ((h !!! sr) !! k), ((h !!! r) !! k); done.
Qed.

Lemma merge_into_other sr r h r' :
  r' ≠ sr → merge_into sr r h !! r' = h !! r'.
Proof. apply foldl_add_result_other. Qed.

Lemma merge_into_dom sr r h r' : r' ∈ dom h → r' ∈ dom (merge_into sr r h).
Proof. apply foldl_add_result_dom. Qed.

Lemma lookup_merged d m k :
  merged d m !! k
  = match m !! k with
    | Some v => Some (default 0 (d !! k) + v)
    | None => d !! k
    end.
Proof. unfold merged. rewrite lookup_merge. by destruct (d !! k), (m !! k). Qed.

(** ** [log_operation] and [accumulate] in closed form *)

Lemma log_operation_spec quantity0 price0 date0 results0 w :
  log_operation quantity0 price0 date0 results0 w
  = log_operation_result quantity0 price0 date0 results0 w.
Proof.
  unfold log_operation, log_operation_result, positioned, with_log.
  unfold_M. simpl.
  destruct (log (self w) !! date0) as [rec|] eqn:Hd; simpl.
  - rewrite Hd. simpl. rewrite lookup_insert_eq. simpl.
    destruct (operations rec); simpl; [|done].
    unfold modify. simpl. by rewrite insert_insert_eq.
  - rewrite lookup_insert_eq. simpl. rewrite lookup_insert_eq. simpl.
    unfold modify. simpl. by rewrite !insert_insert_eq.
Qed.

Lemma average_price_truthy q p quantity0 price0 :
  truthy (q + quantity0) = true →
  Utils.average_price q p quantity0 price0
  = inr ((q * p + quantity0 * price0) / (q + quantity0)).
Proof.
  unfold truthy, Utils.average_price, truediv. intros H.
  apply bool_decide_eq_true_1 in H. by rewrite decide_False.
Qed.

Lemma accumulate_spec quantity0 price0 date0 results0 w :
  accumulate quantity0 price0 date0 results0 w
  = accumulate_result quantity0 price0 date0 results0 w.
Proof.
  unfold accumulate, accumulate_result, finish, opposing, new_price_of, commit.
  unfold mbind, M_bind, gets. simpl.
  set (q := quantity (self w)). set (p := price (self w)).
  assert (∃ r h, resolve results0 (heap w) = (r, h) ∧
    match results0 with
    | Some r => mret r
    | None => new_dict {["trades" := 0]}
    end w = (inr r, set_heap w h)) as (r & h & -> & ->).
  { destruct results0; simpl; eexists _, _; (split; [done|]).
    - unfold mret, M_ret. by rewrite set_heap_id.
    - done. }
  simpl.
  destruct (Utils.same_sign q quantity0) eqn:Hs; simpl.
  - destruct (truthy (q + quantity0)) eqn:Ht; simpl.
    + rewrite average_price_truthy by done. unfold_M. simpl.
      rewrite for_each_add_result. simpl.
      destruct (logging (self w)); [by rewrite log_operation_spec|done].
    + unfold_M. simpl. rewrite for_each_add_result. simpl.
      destruct (logging (self w)); [by rewrite log_operation_spec|done].
  - destruct (bool_decide (q ≠ 0)) eqn:Hq; simpl.
    + unfold_M. simpl. destruct ((h !!! r) !! "trades") as [t|]; [|done].
      simpl. rewrite for_each_add_result. simpl.
      destruct (logging (self w)); [by rewrite log_operation_spec|done].
    + unfold_M. simpl. rewrite for_each_add_result. simpl.
      destruct (logging (self w)); [by rewrite log_operation_spec|done].
Qed.

(** ** What a call leaves of the accumulator *)

Lemma log_operation_result_self quantity0 price0 date0 r w :
  ∃ l, self (log_operation_result quantity0 price0 date0 r w).2
       = set_log (self w) l.
Proof.
  unfold log_operation_result.
  destruct (operations (positioned w date0)); simpl; eauto.
Qed.

Lemma log_operation_result_heap quantity0 price0 date0 r w :
  heap (log_operation_result quantity0 price0 date0 r w).2 = heap w.
Proof.
  unfold log_operation_result.
  by destruct (operations (positioned w date0)).
Qed.

Lemma finish_self quantity0 price0 date0 r nq np w :
  ∃ l, self (finish quantity0 price0 date0 r nq np w).2
       = set_log (commit (self w) nq np) l
       ∧ (logging (self w) = false → l = log (self w)).
Proof.
  unfold finish. destruct (logging (self w)) eqn:Hl.
  - destruct (log_operation_result_self quantity0 price0 date0 r
      {| heap := merge_into (results (self w)) r (heap w);
         self := commit (self w) nq np |}) as [l Hself].
    exists l. by rewrite Hself.
  - exists (log (self w)). split; [|done]. simpl. by destruct (self w).
Qed.

Lemma finish_heap quantity0 price0 date0 r nq np w :
  heap (finish quantity0 price0 date0 r nq np w).2
  = merge_into (results (self w)) r (heap w).
Proof.
  unfold finish. destruct (logging (self w)); [|done].
  by rewrite log_operation_result_heap.
Qed.


(** An opposing trade finds a non-zero held quantity. *)
Lemma opposing_nonzero q quantity0 : opposing q quantity0 = true → q ≠ 0.
Proof.
  unfold opposing. intros [_ H]%andb_true_iff. by apply bool_decide_eq_true_1 in H.
Qed.

(** The accumulator after a call: either the call raised on a results
    dictionary without ['trades'] and nothing of [self] changed, or the
    quantity and the price were committed. *)
Lemma accumulate_self quantity0 price0 date0 results0 w :
  let w' := (accumulate quantity0 price0 date0 results0 w).2 in
  let q := quantity (self w) in
  (opposing q quantity0 = true ∧ self w' = self w) ∨
  (∃ l, self w'
        = set_log (commit (self w) (q + quantity0)
                     (new_price_of q (price (self w)) quantity0 price0)) l
        ∧ (logging (self w) = false → l = log (self w))).
Proof.
  simpl. rewrite accumulate_spec. unfold accumulate_result.
  destruct (opposing (quantity (self w)) quantity0) eqn:Ho.
  - destruct ((_ !!! _) !! "trades") as [t|].
    + right. match goal with |- context [finish ?a ?b ?c ?d ?e ?f ?g] =>
        destruct (finish_self a b c d e f g) as (l & -> & Hl) end.
      exists l. split; done.
    + left. done.
  - right. match goal with |- context [finish ?a ?b ?c ?d ?e ?f ?g] =>
      destruct (finish_self a b c d e f g) as (l & -> & Hl) end.
    exists l. split; done.
Qed.

(** What a call can raise: [KeyError('trades')] before anything of [self]
    is assigned, or [KeyError('operations')] from [log_operation].  The
    division of [average_price] is not reached with a zero divisor. *)
Lemma accumulate_outcomes quantity0 price0 date0 results0 w :
  let out := accumulate quantity0 price0 date0 results0 w in
  out.1 = inr tt
  ∨ (out.1 = inl (KeyError (Some "trades"))
     ∧ opposing (quantity (self w)) quantity0 = true
     ∧ ((resolve results0 (heap w)).2 !!! (resolve results0 (heap w)).1)
         !! "trades" = None)
  ∨ (out.1 = inl (KeyError (Some "operations"))
     ∧ logging (self w) = true
     ∧ ∃ rec, log (self w) !! date0 = Some rec ∧ operations rec = None).
Proof.
  simpl. rewrite accumulate_spec. unfold accumulate_result.
  assert (∀ r nq np w0, log (self w0) = log (self w) →
            logging (self w0) = logging (self w) →
            (finish quantity0 price0 date0 r nq np w0).1 = inr tt
            ∨ ((finish quantity0 price0 date0 r nq np w0).1
               = inl (KeyError (Some "operations"))
               ∧ logging (self w) = true
               ∧ ∃ rec, log (self w) !! date0 = Some rec
                        ∧ operations rec = None)) as Hfin.
  { intros r nq np w0 Hsame Hlog. unfold finish. rewrite Hlog.
    destruct (logging (self w)); [|by left].
    unfold log_operation_result, positioned. simpl. rewrite Hsame.
    destruct (log (self w) !! date0) as [rec|]; simpl; [|by left].
    destruct (operations rec) eqn:Hops; [by left|].
    right. eauto. }
  destruct (opposing (quantity (self w)) quantity0).
  - destruct ((_ !!! _) !! "trades") as [t|] eqn:Ht.
    + destruct (Hfin (resolve results0 (heap w)).1
                  (quantity (self w) + quantity0)
                  (new_price_of (quantity (self w)) (price (self w))
                     quantity0 price0)
                  (set_heap w
                     (<[(resolve results0 (heap w)).1 :=
                          <["trades" := t + realized quantity0 price0
                                              (price (self w))]>
                            ((resolve results0 (heap w)).2
                             !!! (resolve results0 (heap w)).1)]>
                        (resolve results0 (heap w)).2))
                  eq_refl eq_refl) as [?|?]; auto.
    + right. left. done.
  - destruct (Hfin (resolve results0 (heap w)).1
                (quantity (self w) + quantity0)
                (new_price_of (quantity (self w)) (price (self w))
                   quantity0 price0)
                (set_heap w (resolve results0 (heap w)).2)
                eq_refl eq_refl) as [?|?]; auto.
Qed.

Lemma accumulate_date quantity0 price0 date0 results0 w :
  date (self (accumulate quantity0 price0 date0 results0 w).2) = date (self w).
Proof.
  destruct (accumulate_self quantity0 price0 date0 results0 w)
    as [[_ ->]|(l & -> & _)]; done.
Qed.

Lemma accumulate_results_ref quantity0 price0 date0 results0 w :
  results (self (accumulate quantity0 price0 date0 results0 w).2)
  = results (self w).
Proof.
  destruct (accumulate_self quantity0 price0 date0 results0 w)
    as [[_ ->]|(l & -> & _)]; done.
Qed.

Lemma accumulate_zero_price quantity0 price0 date0 results0 w :
  let w' := (accumulate quantity0 price0 date0 results0 w).2 in
  quantity (self w') = 0 → price (self w') = 0.
Proof.
  simpl. destruct (accumulate_self quantity0 price0 date0 results0 w)
    as [[Ho ->]|(l & -> & _)]; simpl.
  - intros Hq. by apply opposing_nonzero in Ho.
  - intros ->. unfold truthy. by rewrite bool_decide_eq_false_2 by auto.
Qed.

Lemma run_cons c calls w : run (c :: calls) w = run calls (accumulate_call c w).2.
Proof. done. Qed.

(** C4: after any non-empty sequence of [accumulate] calls, from any initial
    state of the accumulator, a committed quantity of 0 comes with a
    committed price of 0.  The calls may raise: the property holds of the
    accumulator as each call leaves it. *)
Theorem zero_quantity_zero_price (w : World) (c : Call) (calls : list Call) :
  quantity (self (run (c :: calls) w)) = 0 →
  price (self (run (c :: calls) w)) = 0.
Proof.
  revert w c. induction calls as [|c' calls IH]; intros w c.
  - rewrite run_cons. destruct c as [q0 p0 d0 r0].
    exact (accumulate_zero_price q0 p0 d0 r0 w).
  - rewrite run_cons. apply IH.
Qed.

Lemma zero_quantity_zero_price_witness :
  quantity (self (run [Sample.buy_10_at_100; Sample.sell_10_at_110]
                    (Sample.flat false))) = 0
  ∧ price (self (run [Sample.buy_10_at_100; Sample.sell_10_at_110]
                   (Sample.flat false))) = 0.
Proof.
  assert (quantity (self (run [Sample.buy_10_at_100; Sample.sell_10_at_110]
                            (Sample.flat false))) = 0) as H
    by (apply Qc_is_canon; vm_compute; reflexivity).
  split; [exact H|].
  exact (zero_quantity_zero_price (Sample.flat false) Sample.buy_10_at_100
           [Sample.sell_10_at_110] H).
Defined.

(** C3: [accumulate] does not assign [self.date].  On a new accumulator,
    [accumulate(10, 100, date='2020-01-01')] leaves [date] at [None]; by
    [accumulate_date] the same holds of every call. *)
Theorem date_not_recorded :
  date (self (accumulate_call Sample.buy_10_at_100 (Sample.flat false)).2)
  = None
  ∧ call_date Sample.buy_10_at_100 = Some "2020-01-01".
Proof. split; [|done]. unfold accumulate_call. by rewrite accumulate_date. Qed.

(** C2: [accumulate] raises [KeyError('trades')] when the trade opposes the
    held position and the results dictionary passed has no key ['trades']:
    here 100 units are held and [accumulate(-40, 15, results={'daytrade': 50})]
    is called.  With logging on, it also raises [KeyError('operations')] when
    the record of the date was made by [log_event], which gives it no
    ['operations'] list: here [accumulate(10, 100, date='2020-01-01')] follows
    an event of that date. *)
Theorem accumulate_raises_KeyError :
  (accumulate (Qc_of_Z (-40)) (Qc_of_Z 15) None (Some 2%positive)
     (Sample.long false)).1
  = inl (KeyError (Some "trades"))
  ∧ (accumulate_event Sample.event_2020_01_01 (Sample.flat true)).1 = inr tt
  ∧ (accumulate_call Sample.buy_10_at_100
       (accumulate_event Sample.event_2020_01_01 (Sample.flat true)).2).1
    = inl (KeyError (Some "operations")).
Proof. repeat split; vm_compute; reflexivity. Qed.

(** ** Trades in the direction of the position *)

Lemma same_sign_not_opposing q quantity0 :
  Utils.same_sign q quantity0 = true → opposing q quantity0 = false.
Proof. unfold opposing. by intros ->. Qed.


Lemma same_sign_zero_l y : Utils.same_sign 0 y = true.
Proof. unfold Utils.same_sign. by rewrite bool_decide_eq_true_2. Qed.

Lemma same_sign_zero_r x : Utils.same_sign x 0 = true.
Proof.
  unfold Utils.same_sign. rewrite (bool_decide_eq_true_2 (0 = 0)) by done.
  by rewrite orb_true_r.
Qed.

Lemma same_sign_direction x y :
  (0 < x ∧ 0 < y) ∨ (x < 0 ∧ y < 0) → Utils.same_sign x y = true.
Proof.
  unfold Utils.same_sign. intros [[Hx Hy]|[Hx Hy]].
  - rewrite (bool_decide_eq_true_2 (0 < x)), (bool_decide_eq_true_2 (0 < y)) by done.
    simpl. by rewrite orb_true_r.
  - rewrite (bool_decide_eq_true_2 (x < 0)), (bool_decide_eq_true_2 (y < 0)) by done.
    simpl. by rewrite orb_true_r.
Qed.





(** ** Trades against the position *)

Lemma fresh_not_live (h : gmap ref (gmap string Qc)) r :
  r ∈ dom h → r ≠ fresh (dom h).
Proof. intros Hr ->. by apply (is_fresh (dom h)). Qed.

(** A trade against the position, with [results] left out: the dictionary
    [{'trades': 0}] made for the call receives the realized result, which the
    loop then adds to the accumulator's. *)
Lemma accumulate_opposing_default quantity0 price0 date0 w :
  opposing (quantity (self w)) quantity0 = true →
  results (self w) ∈ dom (heap w) →
  let w' := (accumulate quantity0 price0 date0 None w).2 in
  let q := quantity (self w) in
  let p := price (self w) in
  let gain := realized quantity0 price0 p in
  quantity (self w') = q + quantity0
  ∧ price (self w')
    = (if truthy (q + quantity0) then new_price_of q p quantity0 price0 else 0)
  ∧ heap w' !! fresh (dom (heap w)) = Some {["trades" := 0 + gain]}
  ∧ results_of w' !! "trades"
    = Some (default 0 (results_of w !! "trades") + (0 + gain)).
Proof.
  intros Ho Hlive. simpl.
  pose proof (fresh_not_live _ _ Hlive) as Hne.
  pose proof (accumulate_results_ref quantity0 price0 date0 None w) as Hres.
  unfold results_of. rewrite Hres. clear Hres.
  rewrite accumulate_spec. unfold accumulate_result. rewrite Ho. simpl.
  rewrite lookup_total_insert_eq, lookup_singleton_eq.
  rewrite insert_insert_eq, insert_singleton_eq.
  match goal with |- context [finish ?a ?b ?c ?d ?e ?f ?g] =>
    destruct (finish_self a b c d e f g) as (l & Hself & _);
    pose proof (finish_heap a b c d e f g) as Hheap end.
  rewrite Hself, Hheap. simpl. clear Hself Hheap.
  split; [done|]. split; [done|]. split.
  - rewrite merge_into_other by done. by rewrite lookup_insert_eq.
  - rewrite merge_into_self, lookup_merged.
    rewrite lookup_total_insert_eq, lookup_singleton_eq.
    by rewrite lookup_total_insert_ne by done.
Qed.

(** C1: 100 units are held at the price 10 and [accumulate(-150, 12)] is
    called.  The call commits the quantity -50 and the price 12, and the
    realized result is that of the whole incoming trade,
    [abs(-150)*12 - abs(-150)*10 = 300]: the dictionary made for the call
    holds it under ['trades'] and the accumulator's ['trades'] grows by it. *)
Theorem flip_uses_incoming_magnitude (w : World) (d : Date) :
  quantity (self w) = Qc_of_Z 100 →
  price (self w) = Qc_of_Z 10 →
  results (self w) ∈ dom (heap w) →
  let w' := (accumulate (Qc_of_Z (-150)) (Qc_of_Z 12) d None w).2 in
  quantity (self w') = Qc_of_Z (-50)
  ∧ price (self w') = Qc_of_Z 12
  ∧ realized (Qc_of_Z (-150)) (Qc_of_Z 12) (Qc_of_Z 10) = Qc_of_Z 300
  ∧ heap w' !! fresh (dom (heap w)) = Some {["trades" := Qc_of_Z 300]}
  ∧ results_of w' !! "trades"
    = Some (default 0 (results_of w !! "trades") + Qc_of_Z 300).
Proof.
  intros Hq Hp Hlive.
  assert (opposing (Qc_of_Z 100) (Qc_of_Z (-150)) = true) as Ho
    by (vm_compute; reflexivity).
  rewrite <-Hq in Ho.
  destruct (accumulate_opposing_default (Qc_of_Z (-150)) (Qc_of_Z 12) d w Ho Hlive)
    as (Hq' & Hp' & Hd' & Ht').
  rewrite Hq, Hp in *.
  assert (Qc_of_Z 100 + Qc_of_Z (-150) = Qc_of_Z (-50)) as E1 by qc_eval.
  assert (0 + realized (Qc_of_Z (-150)) (Qc_of_Z 12) (Qc_of_Z 10) = Qc_of_Z 300)
    as E2 by qc_eval.
  assert (new_price_of (Qc_of_Z 100) (Qc_of_Z 10) (Qc_of_Z (-150)) (Qc_of_Z 12)
          = Qc_of_Z 12) as E3 by qc_eval.
  assert (truthy (Qc_of_Z (-50)) = true) as E4 by (vm_compute; reflexivity).
  rewrite E2 in Hd', Ht'. rewrite E1 in Hq', Hp'. rewrite E4, E3 in Hp'.
  rewrite Qcplus_0_l in E2. done.
Qed.

Lemma long_results_live logging0 :
  results (self (Sample.long logging0)) ∈ dom (heap (Sample.long logging0)).
Proof. apply elem_of_dom. eexists. vm_compute. reflexivity. Defined.

Lemma flip_uses_incoming_magnitude_witness :
  quantity (self (Sample.long false)) = Qc_of_Z 100
  ∧ price (self (Sample.long false)) = Qc_of_Z 10
  ∧ results (self (Sample.long false)) ∈ dom (heap (Sample.long false))
  ∧ (let w' := (accumulate (Qc_of_Z (-150)) (Qc_of_Z 12) (Some "2020-01-02")
                  None (Sample.long false)).2 in
     quantity (self w') = Qc_of_Z (-50)
     ∧ price (self w') = Qc_of_Z 12
     ∧ realized (Qc_of_Z (-150)) (Qc_of_Z 12) (Qc_of_Z 10) = Qc_of_Z 300
     ∧ heap w' !! fresh (dom (heap (Sample.long false)))
       = Some {["trades" := Qc_of_Z 300]}
     ∧ results_of w' !! "trades"
       = Some (default 0 (results_of (Sample.long false) !! "trades")
               + Qc_of_Z 300)).
Proof.
  split; [reflexivity|]. split; [reflexivity|].
  split; [exact (long_results_live false)|].
  exact (flip_uses_incoming_magnitude (Sample.long false) (Some "2020-01-02")
           eq_refl eq_refl (long_results_live false)).
Defined.

(** C5: 100 units are held at the price 10 and [accumulate(-40, 15)] is
    called.  The accumulator's ['trades'] grows by [40*15 - 40*10 = 200],
    the quantity becomes 60 and the price stays 10. *)
Theorem reducing_trade_keeps_price (w : World) (d : Date) :
  quantity (self w) = Qc_of_Z 100 →
  price (self w) = Qc_of_Z 10 →
  results (self w) ∈ dom (heap w) →
  let w' := (accumulate (Qc_of_Z (-40)) (Qc_of_Z 15) d None w).2 in
  results_of w' !! "trades"
  = Some (default 0 (results_of w !! "trades") + Qc_of_Z 200)
  ∧ Qc_of_Z 40 * Qc_of_Z 15 - Qc_of_Z 40 * Qc_of_Z 10 = Qc_of_Z 200
  ∧ quantity (self w') = Qc_of_Z 60
  ∧ price (self w') = price (self w).
Proof.
  intros Hq Hp Hlive.
  assert (opposing (Qc_of_Z 100) (Qc_of_Z (-40)) = true) as Ho
    by (vm_compute; reflexivity).
  rewrite <-Hq in Ho.
  destruct (accumulate_opposing_default (Qc_of_Z (-40)) (Qc_of_Z 15) d w Ho Hlive)
    as (Hq' & Hp' & _ & Ht').
  rewrite Hq, Hp in *.
  assert (Qc_of_Z 100 + Qc_of_Z (-40) = Qc_of_Z 60) as E1 by qc_eval.
  assert (0 + realized (Qc_of_Z (-40)) (Qc_of_Z 15) (Qc_of_Z 10) = Qc_of_Z 200)
    as E2 by qc_eval.
  assert (new_price_of (Qc_of_Z 100) (Qc_of_Z 10) (Qc_of_Z (-40)) (Qc_of_Z 15)
          = Qc_of_Z 10) as E3 by qc_eval.
  assert (truthy (Qc_of_Z 60) = true) as E4 by (vm_compute; reflexivity).
  rewrite E2 in Ht'. rewrite E1 in Hq', Hp'. rewrite E4, E3 in Hp'.
  repeat split; done.
Qed.

Lemma reducing_trade_keeps_price_witness :
  quantity (self (Sample.long false)) = Qc_of_Z 100
  ∧ price (self (Sample.long false)) = Qc_of_Z 10
  ∧ results (self (Sample.long false)) ∈ dom (heap (Sample.long false))
  ∧ (let w' := (accumulate (Qc_of_Z (-40)) (Qc_of_Z 15) (Some "2020-01-02")
                  None (Sample.long false)).2 in
     results_of w' !! "trades"
     = Some (default 0 (results_of (Sample.long false) !! "trades")
             + Qc_of_Z 200)
     ∧ Qc_of_Z 40 * Qc_of_Z 15 - Qc_of_Z 40 * Qc_of_Z 10 = Qc_of_Z 200
     ∧ quantity (self w') = Qc_of_Z 60
     ∧ price (self w') = price (self (Sample.long false))).
Proof.
  split; [reflexivity|]. split; [reflexivity|].
  split; [exact (long_results_live false)|].
  exact (reducing_trade_keeps_price (Sample.long false) (Some "2020-01-02")
           eq_refl eq_refl (long_results_live false)).
Defined.

(** ** A call that only reports results *)

Lemma lookup_total_fresh (h : gmap ref (gmap string Qc)) :
  h !!! fresh (dom h) = (∅ : gmap string Qc).
Proof.
  rewrite lookup_total_alt.
  by rewrite (not_elem_of_dom_1 h (fresh (dom h)) (is_fresh (dom h))).
Qed.




(** ** The keys of the accumulator's results *)

Lemma key_live (h : gmap ref (gmap string Qc)) r (key : string) :
  key ∈ dom (h !!! r) → r ∈ dom h.
Proof.
  rewrite lookup_total_alt. intros Hk. apply elem_of_dom.
  destruct (h !! r); [done|]. simpl in Hk. by rewrite dom_empty_L in Hk.
Qed.

Lemma resolve_keeps results0 (h : gmap ref (gmap string Qc)) r :
  r ∈ dom h → (resolve results0 h).2 !!! r = h !!! r.
Proof.
  intros Hr. destruct results0; simpl; [done|].
  rewrite lookup_total_insert_ne; [done|]. by apply not_eq_sym, fresh_not_live.
Qed.

Lemma merged_dom d m (key : string) : key ∈ dom d → key ∈ dom (merged d m).
Proof.
  rewrite !elem_of_dom, lookup_merged. intros [x ->].
  destruct (m !! key); eauto.
Qed.

Lemma finish_keeps_key quantity0 price0 date0 r nq np w (key : string) :
  key ∈ dom (results_of w) →
  key ∈ dom (results_of (finish quantity0 price0 date0 r nq np w).2).
Proof.
  unfold results_of. intros Hk.
  destruct (finish_self quantity0 price0 date0 r nq np w) as (l & -> & _).
  rewrite finish_heap. simpl. rewrite merge_into_self. by apply merged_dom.
Qed.

(** No call removes a key from the accumulator's results. *)
Lemma accumulate_keeps_key quantity0 price0 date0 results0 w (key : string) :
  key ∈ dom (results_of w) →
  key ∈ dom (results_of (accumulate quantity0 price0 date0 results0 w).2).
Proof.
  intros Hk. pose proof (key_live _ _ _ Hk) as Hlive.
  assert (key ∈ dom ((resolve results0 (heap w)).2 !!! results (self w)))
    as Hk' by (by rewrite resolve_keeps).
  rewrite accumulate_spec. unfold accumulate_result.
  destruct (opposing (quantity (self w)) quantity0).
  - destruct ((_ !!! _) !! "trades") as [t|]; [|done].
    apply finish_keeps_key. unfold results_of. simpl.
    destruct (decide ((resolve results0 (heap w)).1 = results (self w)))
      as [->|Hne].
    + rewrite lookup_total_insert_eq, dom_insert_L. set_solver.
    + by rewrite lookup_total_insert_ne.
  - by apply finish_keeps_key.
Qed.

Lemma run_keeps_key calls w (key : string) :
  key ∈ dom (results_of w) → key ∈ dom (results_of (run calls w)).
Proof.
  revert w. induction calls as [|[q0 p0 d0 r0] calls IH]; intros w Hk; [done|].
  rewrite run_cons. apply IH.
  exact (accumulate_keeps_key q0 p0 d0 r0 w key Hk).
Qed.

(** C8, as the code has it: a new accumulator has the key ['trades'] in its
    results, an accumulator seeded from an [initial_status] has it when the
    seed's results have it, and from then on it is there after every sequence
    of [accumulate] calls (the empty one included). *)
Theorem trades_key_persists (h : gmap ref (gmap string Qc)) (asset0 : string)
    (initial_status : option InitialStatus) (logging0 : bool)
    (calls : list Call) :
  match initial_status with
  | Some st => "trades" ∈ dom (h !!! is_results st)
  | None => True
  end →
  "trades" ∈ dom (results_of (run calls (init h asset0 initial_status logging0))).
Proof.
  intros Hseed. apply run_keeps_key.
  destruct initial_status as [st|]; unfold results_of; simpl; [done|].
  rewrite lookup_total_insert_eq, dom_singleton_L. set_solver.
Qed.

Lemma trades_key_persists_witness :
  "trades" ∈ dom (Sample.long_heap !!! is_results Sample.long_status)
  ∧ "trades" ∈ dom (results_of (run [Sample.sell_40_at_15_shared]
                                  (Sample.long true))).
Proof.
  assert ("trades" ∈ dom (Sample.long_heap !!! is_results Sample.long_status))
    as Hseed by (apply elem_of_dom; eexists; vm_compute; reflexivity).
  split; [exact Hseed|].
  exact (trades_key_persists Sample.long_heap "ASSET" (Some Sample.long_status)
           true [Sample.sell_40_at_15_shared] Hseed).
Defined.

(** C8 as stated fails: an accumulator seeded from an [initial_status] whose
    results are [{'daytrade': 50}] has no key ['trades'] after its
    construction. *)
Lemma seeded_without_trades :
  ¬ ("trades" ∈ dom (results_of Sample.seeded_daytrade)).
Proof.
  rewrite elem_of_dom. intros [x Hx]. vm_compute in Hx. discriminate.
Qed.

(** ** The commission proration *)

Lemma hundred_nonzero : Qc_of_Z 100 ≠ 0.
Proof. vm_compute. discriminate. Qed.

Lemma prorate_items_spec items percent commissions0 :
  NoDup items.*1 →
  ∃ commissions',
    Prorate.prorate_items items percent commissions0 = inr commissions'
    ∧ ∀ key, commissions' !! key
             = match (list_to_map items : gmap string Qc) !! key with
               | Some value => Some (value * percent / Qc_of_Z 100)
               | None => commissions0 !! key
               end.
Proof.
  revert commissions0.
  induction items as [|[k v] items IH]; intros commissions0 Hnd.
  - exists commissions0. split; [done|]. intros key. simpl.
    by rewrite lookup_empty.
  - rewrite fmap_cons in Hnd. apply NoDup_cons in Hnd as [Hk Hnd].
    cbn [Prorate.prorate_items list_to_map foldr uncurry]. unfold truediv.
    rewrite decide_False by apply hundred_nonzero.
    destruct (IH (<[k := v * percent / Qc_of_Z 100]> commissions0) Hnd)
      as (commissions' & -> & Hlookup).
    exists commissions'. split; [done|]. intros key. rewrite Hlookup.
    destruct (decide (k = key)) as [->|Hne].
    + rewrite (not_elem_of_list_to_map_1 _ _ Hk). by rewrite !lookup_insert_eq.
    + by rewrite !lookup_insert_ne.
Qed.

(** C9: the proration never raises.  When both volumes are non-zero, every
    key of the container's commissions is set on the operation to
    [container.commissions[key] * (operation.volume / container.volume * 100)
    / 100] and the operation's other commissions stay; when a volume is zero,
    the operation is left as it is. *)
Theorem prorate_by_volume (container : Prorate.Container)
    (operation : Prorate.Operation) :
  ∃ operation',
    Prorate.prorate_commissions_by_position container operation
    = inr operation'
    ∧ if decide (Prorate.volume operation ≠ 0
                 ∧ Prorate.container_volume container ≠ 0)
      then
        Prorate.volume operation' = Prorate.volume operation
        ∧ ∀ key,
            Prorate.commissions operation' !! key
            = match Prorate.container_commissions container !! key with
              | Some value =>
                  Some (value
                        * (Prorate.volume operation
                           / Prorate.container_volume container * Qc_of_Z 100)
                        / Qc_of_Z 100)
              | None => Prorate.commissions operation !! key
              end
      else operation' = operation.
Proof.
  unfold Prorate.prorate_commissions_by_position.
  destruct (decide (Prorate.volume operation ≠ 0
                    ∧ Prorate.container_volume container ≠ 0)) as [[Ho Hc]|Hz].
  - rewrite !bool_decide_eq_true_2 by done. simpl. unfold truediv at 1.
    rewrite decide_False by done.
    destruct (prorate_items_spec
                (map_to_list (Prorate.container_commissions container))
                (Prorate.volume operation / Prorate.container_volume container
                 * Qc_of_Z 100)
                (Prorate.commissions operation)
                (NoDup_fst_map_to_list _)) as (commissions' & -> & Hlookup).
    eexists. split; [done|]. simpl. split; [done|]. intros key.
    rewrite Hlookup. by rewrite list_to_map_to_list.
  - exists operation. split; [|done].
    destruct (bool_decide (Prorate.volume operation ≠ 0)) eqn:Ho; [|done].
    destruct (bool_decide (Prorate.container_volume container ≠ 0)) eqn:Hc;
      [|done].
    apply bool_decide_eq_true_1 in Ho, Hc. by destruct Hz.
Qed.

(** ** The log of the operations *)

(** A dictionary that is neither the accumulator's nor the one passed is
    left alone by a call, and no dictionary disappears. *)
Lemma accumulate_heap_dom quantity0 price0 date0 results0 w r :
  r ∈ dom (resolve results0 (heap w)).2 →
  r ∈ dom (heap (accumulate quantity0 price0 date0 results0 w).2).
Proof.
  intros Hr. rewrite accumulate_spec. unfold accumulate_result.
  destruct (opposing (quantity (self w)) quantity0).
  - destruct ((_ !!! _) !! "trades") as [t|]; [|done].
    rewrite finish_heap. apply merge_into_dom. simpl.
    rewrite dom_insert_L. set_solver.
  - rewrite finish_heap. by apply merge_into_dom.
Qed.


Lemma accumulate_heap_frame quantity0 price0 date0 results0 w r :
  r ∈ dom (heap w) → r ≠ results (self w) → results0 ≠ Some r →
  heap (accumulate quantity0 price0 date0 results0 w).2 !! r = heap w !! r.
Proof.
  intros Hr Hself Harg.
  assert (r ≠ (resolve results0 (heap w)).1) as Hne.
  { destruct results0 as [r'|]; simpl; [congruence|].
    by apply fresh_not_live. }
  assert ((resolve results0 (heap w)).2 !! r = heap w !! r) as Hres.
  { destruct results0 as [r'|]; simpl; [done|].
    rewrite lookup_insert_ne; [done|]. by apply not_eq_sym, fresh_not_live. }
  rewrite accumulate_spec. unfold accumulate_result.
  destruct (opposing (quantity (self w)) quantity0).
  - destruct ((_ !!! _) !! "trades") as [t|]; [|done].
    rewrite finish_heap, merge_into_other by done. simpl.
    by rewrite lookup_insert_ne.
  - by rewrite finish_heap, merge_into_other.
Qed.

Lemma log_operation_result_returns quantity0 price0 date0 r w w' :
  log_operation_result quantity0 price0 date0 r w = (inr tt, w') →
  ∃ ops,
    operations (default new_record (log (self w) !! date0)) = Some ops
    ∧ w' = with_log w
             (<[date0 :=
                  {| position := Some (quantity (self w), price (self w));
                     operations :=
                       Some (ops ++ [mkOperationEntry quantity0 price0 r]);
                     events :=
                       events (default new_record (log (self w) !! date0)) |}]>
                (log (self w))).
Proof.
  unfold log_operation_result, positioned, set_position, set_operations.
  fold new_record. simpl.
  destruct (operations (default new_record (log (self w) !! date0)))
    as [ops|]; [|done].
  intros [= <-]. by exists ops.
Qed.

(** A call that returns, when logging: the record of the date receives the
    committed position and, after the entries that it had, the entry of the
    call. *)
Lemma accumulate_log quantity0 price0 date0 results0 w w' :
  logging (self w) = true →
  accumulate quantity0 price0 date0 results0 w = (inr tt, w') →
  ∃ ops,
    operations (default new_record (log (self w) !! date0)) = Some ops
    ∧ log (self w')
      = <[date0 :=
            {| position := Some (quantity (self w'), price (self w'));
               operations :=
                 Some (ops ++ [mkOperationEntry quantity0 price0
                                 (resolve results0 (heap w)).1]);
               events :=
                 events (default new_record (log (self w) !! date0)) |}]>
          (log (self w)).
Proof.
  intros Hlog. rewrite accumulate_spec. unfold accumulate_result.
  assert (∀ nq np w0, logging (self w0) = true →
            log (self w0) = log (self w) →
            finish quantity0 price0 date0 (resolve results0 (heap w)).1 nq np w0
            = (inr tt, w') →
            ∃ ops,
              operations (default new_record (log (self w) !! date0)) = Some ops
              ∧ log (self w')
                = <[date0 :=
                      {| position := Some (quantity (self w'), price (self w'));
                         operations :=
                           Some (ops ++ [mkOperationEntry quantity0 price0
                                           (resolve results0 (heap w)).1]);
                         events :=
                           events (default new_record (log (self w) !! date0))
                      |}]> (log (self w))) as Hfin.
  { intros nq np w0 Hlog0 Hsame. unfold finish. rewrite Hlog0.
    intros (ops & Hops & ->)%log_operation_result_returns.
    simpl in *. rewrite Hsame in *. by exists ops. }
  destruct (opposing (quantity (self w)) quantity0).
  - destruct ((_ !!! _) !! "trades") as [t|]; [|done].
    by apply Hfin.
  - by apply Hfin.
Qed.

Lemma logged_operations_insert w d pos ops ev l :
  log (self w) = <[d := {| position := pos; operations := Some ops;
                           events := ev |}]> l →
  logged_operations w d = view (heap w) <$> ops
  ∧ logged_position w d = pos.
Proof.
  intros Hl. unfold logged_operations, logged_position.
  by rewrite Hl, lookup_insert_eq.
Qed.

(** C7, as the code has it: with logging on, two returning calls of
    [accumulate] with one date that is not yet in the log, given separate
    results dictionaries, leave one record for the date; its operations are
    the entry of the first call, as it was after the first call, then the
    entry of the second, and its position is the quantity and the price that
    the second call committed. *)
Theorem same_date_log (w : World) (c1 c2 : Call) :
  logging (self w) = true →
  call_date c2 = call_date c1 →
  log (self w) !! call_date c1 = None →
  separate_results w c1 c2 →
  log_append_only w c1 c2.
Proof.
  intros Hlog Hdate Hnew (Hlive & Hsep1 & Hsep2) w1 w2 Hrun1 Hrun2.
  destruct c1 as [q1 p1 d a1], c2 as [q2 p2 d2 a2].
  unfold accumulate_call in *. simpl in *. subst d2.
  pose proof (accumulate_results_ref q1 p1 d a1 w) as Hres1.
  rewrite Hrun1 in Hres1. simpl in Hres1.
  assert (logging (self w1) = true) as Hlog1.
  { destruct (accumulate_self q1 p1 d a1 w) as [[_ Hs]|(l & Hs & _)];
      rewrite Hrun1 in Hs; simpl in Hs; rewrite Hs; done. }
  destruct (accumulate_log _ _ _ _ _ _ Hlog Hrun1) as (ops1 & Hops1 & Hl1).
  rewrite Hnew in Hops1, Hl1. simpl in Hops1, Hl1.
  injection Hops1 as <-. simpl in Hl1.
  destruct (accumulate_log _ _ _ _ _ _ Hlog1 Hrun2) as (ops2 & Hops2 & Hl2).
  rewrite Hl1, lookup_insert_eq in Hops2. simpl in Hops2.
  injection Hops2 as <-.
  rewrite Hl1 in Hl2 at 1. rewrite lookup_insert_eq in Hl2. simpl in Hl2.
  destruct (logged_operations_insert _ _ _ _ _ _ Hl1) as [Hv1 _].
  destruct (logged_operations_insert _ _ _ _ _ _ Hl2) as [Hv2 Hpos2].
  set (e1 := mkOperationEntry q1 p1 (resolve a1 (heap w)).1) in *.
  set (e2 := mkOperationEntry q2 p2 (resolve a2 (heap w1)).1) in *.
  exists (view (heap w1) e1), (view (heap w2) e2).
  split; [done|]. split.
  { rewrite Hv2. simpl. f_equal. unfold view. f_equal. simpl.
    rewrite !lookup_total_alt. f_equal.
    pose proof (accumulate_heap_frame q2 p2 d a2 w1 (resolve a1 (heap w)).1)
      as Hframe.
    rewrite Hrun2 in Hframe. simpl in Hframe. apply Hframe.
    - pose proof (accumulate_heap_dom q1 p1 d a1 w (resolve a1 (heap w)).1)
        as Hdom.
      rewrite Hrun1 in Hdom. apply Hdom.
      destruct a1 as [r1|]; simpl.
      + by apply Hsep1.
      + rewrite dom_insert_L. apply elem_of_union. left.
        by apply elem_of_singleton.
    - rewrite Hres1. destruct a1 as [r1|]; simpl.
      + by apply Hsep1.
      + by apply not_eq_sym, fresh_not_live.
    - destruct a2 as [r2|]; [|done].
      destruct (Hsep2 r2 eq_refl) as [Hlive2 Hne].
      destruct a1 as [r1|]; simpl.
      + congruence.
      + intros [= ->]. by apply (fresh_not_live _ _ Hlive2). }
  repeat (split; [done|]).
  rewrite Hl2, Hl1, !dom_insert_L.
  by rewrite (assoc_L (∪)), (idemp_L (∪)).
Qed.

Lemma sample_separate_results :
  separate_results (Sample.long true) Sample.sell_40_at_15_shared
    Sample.sell_40_at_15.
Proof.
  split; [exact (long_results_live true)|]. split.
  - intros r [= <-]. split; [|discriminate].
    apply elem_of_dom. eexists. vm_compute. reflexivity.
  - intros r [=].
Defined.

Lemma same_date_log_witness :
  logging (self (Sample.long true)) = true
  ∧ call_date Sample.sell_40_at_15 = call_date Sample.sell_40_at_15_shared
  ∧ log (self (Sample.long true)) !! call_date Sample.sell_40_at_15_shared
    = None
  ∧ separate_results (Sample.long true) Sample.sell_40_at_15_shared
      Sample.sell_40_at_15
  ∧ log_append_only (Sample.long true) Sample.sell_40_at_15_shared
      Sample.sell_40_at_15.
Proof.
  split; [reflexivity|]. split; [reflexivity|]. split; [reflexivity|].
  split; [exact sample_separate_results|].
  exact (same_date_log (Sample.long true) Sample.sell_40_at_15_shared
           Sample.sell_40_at_15 eq_refl eq_refl eq_refl
           sample_separate_results).
Defined.

(** C7 as stated fails when the two calls are given the same results
    dictionary: 100 units are held at 10, logging is on, and
    [accumulate(-40, 15, '2020-01-02', results)] is called twice with the one
    dictionary [results = {'trades': 0}].  Both calls return; the entry of the
    first call shows ['trades': 200] after the first call and ['trades': 400]
    after the second. *)
Lemma shared_results_rewrite_entry :
  logging (self (Sample.long true)) = true
  ∧ log (self (Sample.long true)) !! call_date Sample.sell_40_at_15_shared
    = None
  ∧ ¬ log_append_only (Sample.long true) Sample.sell_40_at_15_shared
        Sample.sell_40_at_15_shared.
Proof.
  split; [reflexivity|]. split; [reflexivity|]. intros Hclaim.
  set (w1 := (accumulate_call Sample.sell_40_at_15_shared (Sample.long true)).2).
  set (w2 := (accumulate_call Sample.sell_40_at_15_shared w1).2).
  assert (accumulate_call Sample.sell_40_at_15_shared (Sample.long true)
          = (inr tt, w1)) as Hrun1 by (vm_compute; reflexivity).
  assert (accumulate_call Sample.sell_40_at_15_shared w1 = (inr tt, w2))
    as Hrun2 by (vm_compute; reflexivity).
  destruct (Hclaim w1 w2 Hrun1 Hrun2) as (e1 & e2 & Hv1 & Hv2 & _).
  assert (head (logged_operations w1 (call_date Sample.sell_40_at_15_shared))
          = head (logged_operations w2 (call_date Sample.sell_40_at_15_shared)))
    as Hhead by (by rewrite Hv1, Hv2).
  apply (f_equal (λ o, this <$> (o ≫= λ e, ev_results e !! "trades"))) in Hhead.
  vm_compute in Hhead. discriminate.
Qed.

(** * Further properties of [accumulate] *)

Lemma finish_outcome quantity0 price0 date0 r nq np w :
  (finish quantity0 price0 date0 r nq np w).1 = inr tt
  ∨ (finish quantity0 price0 date0 r nq np w).1
    = inl (KeyError (Some "operations")).
Proof.
  unfold finish. destruct (logging (self w)); [|by left].
  unfold log_operation_result.
  destruct (operations _); [by left|by right].
Qed.

(** X1: a call of [accumulate] returns, or raises [KeyError('trades')] (the
    trade opposes the position and the results dictionary has no such key),
    or raises [KeyError('operations')] (logging, and the record of the date
    has no operations list).  It raises nothing else: the division of
    [average_price] is never reached with a zero divisor. *)
Theorem accumulate_raises_only_key_errors (quantity0 price0 : Qc)
    (date0 : Date) (results0 : option ref) (w : World) :
  let out := accumulate quantity0 price0 date0 results0 w in
  out.1 = inr tt
  ∨ (out.1 = inl (KeyError (Some "trades"))
     ∧ opposing (quantity (self w)) quantity0 = true
     ∧ match results0 with
       | Some r => (heap w !!! r) !! "trades" = None
       | None => False
       end)
  ∨ (out.1 = inl (KeyError (Some "operations"))
     ∧ logging (self w) = true
     ∧ ∃ rec, log (self w) !! date0 = Some rec ∧ operations rec = None).
Proof.
  destruct (accumulate_outcomes quantity0 price0 date0 results0 w)
    as [H|[(H & Ho & Ht)|H]]; [by left| |by right; right].
  right. left. split; [done|]. split; [done|].
  destruct results0 as [r|]; simpl in Ht; [done|].
  by rewrite lookup_total_insert_eq, lookup_singleton_eq in Ht.
Qed.

(** X2: a call that raises [KeyError('trades')] has changed nothing: neither
    the accumulator nor any dictionary. *)
Theorem failed_trade_changes_nothing (quantity0 price0 : Qc) (date0 : Date)
    (results0 : option ref) (w : World) :
  (accumulate quantity0 price0 date0 results0 w).1
  = inl (KeyError (Some "trades")) →
  (accumulate quantity0 price0 date0 results0 w).2 = w.
Proof.
  rewrite accumulate_spec. unfold accumulate_result.
  destruct (opposing (quantity (self w)) quantity0).
  - destruct ((_ !!! _) !! "trades") as [t|] eqn:Ht.
    + intros Hout.
      match type of Hout with context [finish ?a ?b ?c ?d ?e ?f ?g] =>
        destruct (finish_outcome a b c d e f g) as [H|H] end;
        rewrite H in Hout; discriminate.
    + intros _. destruct results0 as [r|]; simpl in *.
      * apply set_heap_id.
      * by rewrite lookup_total_insert_eq, lookup_singleton_eq in Ht.
  - intros Hout.
    match type of Hout with context [finish ?a ?b ?c ?d ?e ?f ?g] =>
      destruct (finish_outcome a b c d e f g) as [H|H] end;
      rewrite H in Hout; discriminate.
Qed.

Lemma failed_trade_changes_nothing_witness :
  (accumulate (Qc_of_Z (-40)) (Qc_of_Z 15) None (Some 2%positive)
     (Sample.long false)).1 = inl (KeyError (Some "trades"))
  ∧ (accumulate (Qc_of_Z (-40)) (Qc_of_Z 15) None (Some 2%positive)
       (Sample.long false)).2 = Sample.long false.
Proof.
  assert ((accumulate (Qc_of_Z (-40)) (Qc_of_Z 15) None (Some 2%positive)
             (Sample.long false)).1 = inl (KeyError (Some "trades"))) as H
    by (vm_compute; reflexivity).
  split; [exact H|].
  exact (failed_trade_changes_nothing (Qc_of_Z (-40)) (Qc_of_Z 15) None
           (Some 2%positive) (Sample.long false) H).
Defined.

(** With [results] left out, the accumulator is always assigned: the
    dictionary made for the call has the key ['trades']. *)
Lemma accumulate_default_spec quantity0 price0 date0 w :
  ∃ h,
    accumulate quantity0 price0 date0 None w
    = finish quantity0 price0 date0 (fresh (dom (heap w)))
        (quantity (self w) + quantity0)
        (new_price_of (quantity (self w)) (price (self w)) quantity0 price0)
        (set_heap w h).
Proof.
  rewrite accumulate_spec. unfold accumulate_result. simpl.
  rewrite lookup_total_insert_eq, lookup_singleton_eq.
  destruct (opposing (quantity (self w)) quantity0); eauto.
Qed.


(** X3: [accumulate_operation] returns whenever the log has no record of the
    operation's date without an ['operations'] list; in particular whenever
    the accumulator is not logging. *)
Theorem accumulate_operation_returns (operation : TradeOperation) (w : World) :
  (logging (self w) = true →
   ∀ rec, log (self w) !! operation_date operation = Some rec →
          operations rec ≠ None) →
  (accumulate_operation operation w).1 = inr tt.
Proof.
  intros Hrec. unfold accumulate_operation.
  destruct (accumulate_outcomes (operation_quantity operation)
              (operation_real_price operation) (operation_date operation)
              None w) as [H|[(_ & _ & H)|(_ & Hlog & rec & Hd & Hops)]].
  - done.
  - simpl in H. by rewrite lookup_total_insert_eq, lookup_singleton_eq in H.
  - by destruct (Hrec Hlog rec Hd).
Qed.

Lemma accumulate_operation_returns_witness :
  (logging (self (Sample.flat true)) = true →
   ∀ rec, log (self (Sample.flat true)) !! Some "2020-01-01" = Some rec →
          operations rec ≠ None)
  ∧ (accumulate_operation
       (mkTradeOperation (Qc_of_Z 10) (Qc_of_Z 100) (Some "2020-01-01"))
       (Sample.flat true)).1 = inr tt.
Proof.
  assert (logging (self (Sample.flat true)) = true →
          ∀ rec, log (self (Sample.flat true)) !! Some "2020-01-01" = Some rec →
                 operations rec ≠ None) as H.
  { intros _ rec Hrec. simpl in Hrec. by rewrite lookup_empty in Hrec. }
  split; [exact H|].
  exact (accumulate_operation_returns
           (mkTradeOperation (Qc_of_Z 10) (Qc_of_Z 100) (Some "2020-01-01"))
           (Sample.flat true) H).
Defined.

(** X4: whether it returns or raises, [accumulate] assigns none of [asset],
    [date], [logging] and [results] (the dictionary stays the same object),
    and it leaves the log alone when the accumulator is not logging. *)
Theorem accumulate_frame (quantity0 price0 : Qc) (date0 : Date)
    (results0 : option ref) (w : World) :
  let w' := (accumulate quantity0 price0 date0 results0 w).2 in
  asset (self w') = asset (self w)
  ∧ date (self w') = date (self w)
  ∧ logging (self w') = logging (self w)
  ∧ results (self w') = results (self w)
  ∧ (if logging (self w) then True else log (self w') = log (self w)).
Proof.
  simpl. destruct (accumulate_self quantity0 price0 date0 results0 w)
    as [[_ ->]|(l & -> & Hl)]; simpl.
  - repeat split. by destruct (logging (self w)).
  - repeat split. destruct (logging (self w)); [done|]. by apply Hl.
Qed.

(** ** Directions *)

Lemma same_sign_weak_direction x y :
  (0 ≤ x ∧ 0 ≤ y) ∨ (x ≤ 0 ∧ y ≤ 0) → Utils.same_sign x y = true.
Proof.
  intros Hdir.
  destruct (decide (x = 0)) as [->|Hx]; [apply same_sign_zero_l|].
  destruct (decide (y = 0)) as [->|Hy]; [apply same_sign_zero_r|].
  apply same_sign_direction.
  destruct Hdir as [[Hx' Hy']|[Hx' Hy']]; [left|right]; split.
  - apply Qcle_lt_or_eq in Hx' as [?|?]; [done|congruence].
  - apply Qcle_lt_or_eq in Hy' as [?|?]; [done|congruence].
  - apply Qcle_lt_or_eq in Hx' as [?|?]; [done|congruence].
  - apply Qcle_lt_or_eq in Hy' as [?|?]; [done|congruence].
Qed.

Lemma Qclt_asym' (x y : Qc) : x < y → ¬ y < x.
Proof. intros H1 H2. apply (Qclt_not_le _ _ H1). by apply Qclt_le_weak. Qed.

Lemma opposite_direction_opposing x y :
  (0 < x ∧ y < 0) ∨ (x < 0 ∧ 0 < y) → opposing x y = true.
Proof.
  intros Hdir. unfold opposing, Utils.same_sign.
  assert (x ≠ 0 ∧ y ≠ 0 ∧ ¬ (0 < x ∧ 0 < y) ∧ ¬ (x < 0 ∧ y < 0))
    as (Hx & Hy & Hpos & Hneg).
  { destruct Hdir as [[Hx Hy]|[Hx Hy]]; repeat split.
    - by apply not_eq_sym, Qclt_not_eq.
    - by apply Qclt_not_eq.
    - intros [_ Hy']. by apply (Qclt_asym' _ _ Hy).
    - intros [Hx' _]. by apply (Qclt_asym' _ _ Hx).
    - by apply Qclt_not_eq.
    - by apply not_eq_sym, Qclt_not_eq.
    - intros [Hx' _]. by apply (Qclt_asym' _ _ Hx).
    - intros [_ Hy']. by apply (Qclt_asym' _ _ Hy). }
  rewrite (bool_decide_eq_false_2 (x = 0)), (bool_decide_eq_false_2 (y = 0))
    by done.
  rewrite (bool_decide_eq_true_2 (x ≠ 0)) by done. simpl.
  destruct (bool_decide (0 < x)) eqn:H1, (bool_decide (0 < y)) eqn:H2,
    (bool_decide (x < 0)) eqn:H3, (bool_decide (y < 0)) eqn:H4; simpl;
    try done;
    repeat match goal with
           | H : bool_decide _ = true |- _ => apply bool_decide_eq_true_1 in H
           end; tauto.
Qed.








(** ** Results *)

(** X8: a trade against the position, given the caller's dictionary [r]
    (not the accumulator's own) in which ['trades'] is [t]: the realized
    result is added to the caller's ['trades'], and all of the caller's
    ['trades'], [t] included, is added to the accumulator's. *)
Theorem realized_result_in_callers_dictionary (quantity0 price0 t : Qc)
    (date0 : Date) (r : ref) (w : World) :
  (0 < quantity (self w) ∧ quantity0 < 0)
  ∨ (quantity (self w) < 0 ∧ 0 < quantity0) →
  r ≠ results (self w) →
  (heap w !!! r) !! "trades" = Some t →
  let w' := (accumulate quantity0 price0 date0 (Some r) w).2 in
  let gain := Qcabs quantity0 * price0 - Qcabs quantity0 * price (self w) in
  (heap w' !!! r) !! "trades" = Some (t + gain)
  ∧ results_of w' !! "trades"
    = Some (default 0 (results_of w !! "trades") + (t + gain))
  ∧ quantity (self w') = quantity (self w) + quantity0.
Proof.
  intros Hdir Hne Ht. simpl.
  pose proof (opposite_direction_opposing _ _ Hdir) as Ho.
  pose proof (accumulate_results_ref quantity0 price0 date0 (Some r) w) as Hres.
  unfold results_of. rewrite Hres. clear Hres.
  rewrite accumulate_spec. unfold accumulate_result. rewrite Ho. simpl.
  rewrite Ht.
  match goal with |- context [finish ?a ?b ?c ?d ?e ?f ?g] =>
    destruct (finish_self a b c d e f g) as (l & Hself & _);
    pose proof (finish_heap a b c d e f g) as Hheap end.
  rewrite Hself, Hheap. simpl. clear Hself Hheap. unfold realized.
  split; [|split; [|done]].
  - erewrite lookup_total_correct;
      [|rewrite merge_into_other by done; apply lookup_insert_eq].
    apply lookup_insert_eq.
  - rewrite merge_into_self, lookup_merged.
    rewrite lookup_total_insert_eq, lookup_insert_eq.
    by rewrite lookup_total_insert_ne by done.
Qed.

Lemma realized_result_in_callers_dictionary_witness :
  ((0 < quantity (self (Sample.long false)) ∧ Qc_of_Z (-40) < 0)
   ∨ (quantity (self (Sample.long false)) < 0 ∧ 0 < Qc_of_Z (-40)))
  ∧ 1%positive ≠ results (self (Sample.long false))
  ∧ (heap (Sample.long false) !!! 1%positive) !! "trades" = Some 0
  ∧ (let w' := (accumulate (Qc_of_Z (-40)) (Qc_of_Z 15) None (Some 1%positive)
                  (Sample.long false)).2 in
     let gain := Qcabs (Qc_of_Z (-40)) * Qc_of_Z 15
                 - Qcabs (Qc_of_Z (-40)) * price (self (Sample.long false)) in
     (heap w' !!! 1%positive) !! "trades" = Some (0 + gain)
     ∧ results_of w' !! "trades"
       = Some (default 0 (results_of (Sample.long false) !! "trades")
               + (0 + gain))
     ∧ quantity (self w')
       = quantity (self (Sample.long false)) + Qc_of_Z (-40)).
Proof.
  assert ((0 < quantity (self (Sample.long false)) ∧ Qc_of_Z (-40) < 0)
          ∨ (quantity (self (Sample.long false)) < 0 ∧ 0 < Qc_of_Z (-40)))
    as Hdir by (left; split; vm_compute; reflexivity).
  assert (1%positive ≠ results (self (Sample.long false))) as Hne
    by (vm_compute; discriminate).
  assert ((heap (Sample.long false) !!! 1%positive) !! "trades" = Some 0)
    as Ht by (vm_compute; reflexivity).
  split; [exact Hdir|]. split; [exact Hne|]. split; [exact Ht|].
  exact (realized_result_in_callers_dictionary (Qc_of_Z (-40)) (Qc_of_Z 15) 0
           None 1%positive (Sample.long false) Hdir Hne Ht).
Defined.

Lemma opp_of_positive (q : Qc) : 0 < q → - q < 0.
Proof.
  intros H. apply (Qcplus_lt_mono_r _ _ (- q)) in H.
  by rewrite Qcplus_0_l, Qcplus_opp_r in H.
Qed.

Lemma opp_of_negative (q : Qc) : q < 0 → 0 < - q.
Proof.
  intros H. apply (Qcplus_lt_mono_r _ _ (- q)) in H.
  by rewrite Qcplus_0_l, Qcplus_opp_r in H.
Qed.

Lemma nonzero_opposes_its_opposite (q : Qc) : q ≠ 0 → opposing q (- q) = true.
Proof.
  intros Hq. apply opposite_direction_opposing.
  destruct (Qc_dec 0 q) as [[H|H]|H]; [left|right|congruence]; split; try done.
  - by apply opp_of_positive.
  - by apply opp_of_negative.
Qed.

(** A trade of the opposite of the held quantity, with [results] left out. *)
Lemma accumulate_closing price0 date0 w :
  quantity (self w) ≠ 0 →
  results (self w) ∈ dom (heap w) →
  let w' := (accumulate (- quantity (self w)) price0 date0 None w).2 in
  quantity (self w') = 0
  ∧ price (self w') = 0
  ∧ results_of w' !! "trades"
    = Some (default 0 (results_of w !! "trades")
            + (Qcabs (quantity (self w)) * price0
               - Qcabs (quantity (self w)) * price (self w))).
Proof.
  intros Hq Hlive. simpl.
  destruct (accumulate_opposing_default (- quantity (self w)) price0 date0 w
              (nonzero_opposes_its_opposite _ Hq) Hlive)
    as (Hq' & Hp' & _ & Ht').
  rewrite Qcplus_opp_r in Hq', Hp'.
  split; [done|]. split; [done|].
  rewrite Ht'. unfold realized. by rewrite Qcplus_0_l, Qcabs_opp.
Qed.

(** X9: trading the opposite of the held quantity closes the position: the
    quantity and the price become 0, and the accumulator's ['trades'] grows
    by [abs(q)*price - abs(q)*self.price]. *)
Theorem closing_trade (price0 : Qc) (date0 : Date) (w : World) :
  quantity (self w) ≠ 0 →
  results (self w) ∈ dom (heap w) →
  let w' := (accumulate (- quantity (self w)) price0 date0 None w).2 in
  quantity (self w') = 0
  ∧ price (self w') = 0
  ∧ results_of w' !! "trades"
    = Some (default 0 (results_of w !! "trades")
            + (Qcabs (quantity (self w)) * price0
               - Qcabs (quantity (self w)) * price (self w))).
Proof. apply accumulate_closing. Qed.

Lemma closing_trade_witness :
  quantity (self (Sample.long false)) ≠ 0
  ∧ results (self (Sample.long false)) ∈ dom (heap (Sample.long false))
  ∧ (let w' := (accumulate (- quantity (self (Sample.long false)))
                  (Qc_of_Z 12) None None (Sample.long false)).2 in
     quantity (self w') = 0
     ∧ price (self w') = 0
     ∧ results_of w' !! "trades"
       = Some (default 0 (results_of (Sample.long false) !! "trades")
               + (Qcabs (quantity (self (Sample.long false))) * Qc_of_Z 12
                  - Qcabs (quantity (self (Sample.long false)))
                    * price (self (Sample.long false))))).
Proof.
  assert (quantity (self (Sample.long false)) ≠ 0) as Hq
    by (vm_compute; discriminate).
  split; [exact Hq|]. split; [exact (long_results_live false)|].
  exact (closing_trade (Qc_of_Z 12) None (Sample.long false) Hq
           (long_results_live false)).
Defined.

(** What a trade that does not oppose the position does to the
    dictionaries. *)
Lemma accumulate_not_opposing quantity0 price0 date0 results0 w :
  opposing (quantity (self w)) quantity0 = false →
  let w' := (accumulate quantity0 price0 date0 results0 w).2 in
  let supplied : gmap string Qc :=
    match results0 with
    | Some r => heap w !!! r
    | None => {["trades" := 0]}
    end in
  (∀ key, results_of w' !! key
          = match supplied !! key with
            | Some value => Some (default 0 (results_of w !! key) + value)
            | None => results_of w !! key
            end)
  ∧ (∀ r, r ∈ dom (heap w) → r ≠ results (self w) →
          heap w' !! r = heap w !! r).
Proof.
  intros Ho. simpl.
  rewrite accumulate_spec. unfold accumulate_result. rewrite Ho.
  match goal with |- context [finish ?a ?b ?c ?d ?e ?f ?g] =>
    destruct (finish_self a b c d e f g) as (l & Hself & Hl);
    pose proof (finish_heap a b c d e f g) as Hheap end.
  unfold results_of. rewrite Hself, Hheap. simpl in *. clear Hself Hheap.
  split.
  - intros key. rewrite merge_into_self, lookup_merged.
    destruct results0 as [r|]; simpl; [done|].
    rewrite lookup_total_insert_eq.
    destruct (decide (results (self w) = fresh (dom (heap w)))) as [->|Hne].
    + rewrite lookup_total_insert_eq, lookup_total_fresh.
      destruct (decide (key = "trades")) as [->|Hk].
      * by rewrite lookup_singleton_eq, lookup_empty.
      * by rewrite lookup_singleton_ne.
    + by rewrite lookup_total_insert_ne.
  - intros r Hr Hne. rewrite merge_into_other by done.
    destruct results0 as [r'|]; simpl; [done|].
    rewrite lookup_insert_ne; [done|]. by apply not_eq_sym, fresh_not_live.
Qed.

(** X10: when the trade goes the way of the position (or one of them is
    zero), every value of the dictionary passed as [results] is added to the
    accumulator's value of the same key, a missing key counting as 0; keys
    that the dictionary does not have keep their values, and every
    dictionary other than the accumulator's is left as it was. *)
Theorem supplied_results_are_added (quantity0 price0 : Qc) (date0 : Date)
    (r : ref) (w : World) :
  (0 ≤ quantity (self w) ∧ 0 ≤ quantity0)
  ∨ (quantity (self w) ≤ 0 ∧ quantity0 ≤ 0) →
  let w' := (accumulate quantity0 price0 date0 (Some r) w).2 in
  (∀ key, results_of w' !! key
          = match (heap w !!! r) !! key with
            | Some value => Some (default 0 (results_of w !! key) + value)
            | None => results_of w !! key
            end)
  ∧ (∀ r', r' ∈ dom (heap w) → r' ≠ results (self w) →
           heap w' !! r' = heap w !! r').
Proof.
  intros Hdir.
  exact (accumulate_not_opposing quantity0 price0 date0 (Some r) w
           (same_sign_not_opposing _ _ (same_sign_weak_direction _ _ Hdir))).
Qed.

Lemma supplied_results_are_added_witness :
  ((0 ≤ quantity (self (Sample.long false)) ∧ 0 ≤ Qc_of_Z 30)
   ∨ (quantity (self (Sample.long false)) ≤ 0 ∧ Qc_of_Z 30 ≤ 0))
  ∧ (let w' := (accumulate (Qc_of_Z 30) (Qc_of_Z 20) None (Some 2%positive)
                  (Sample.long false)).2 in
     results_of w' !! "daytrade"
     = Some (default 0 (results_of (Sample.long false) !! "daytrade")
             + Qc_of_Z 50)
     ∧ results_of w' !! "trades" = results_of (Sample.long false) !! "trades").
Proof.
  assert ((0 ≤ quantity (self (Sample.long false)) ∧ 0 ≤ Qc_of_Z 30)
          ∨ (quantity (self (Sample.long false)) ≤ 0 ∧ Qc_of_Z 30 ≤ 0)) as Hdir
    by (left; split; vm_compute; discriminate).
  split; [exact Hdir|].
  destruct (supplied_results_are_added (Qc_of_Z 30) (Qc_of_Z 20) None
              2%positive (Sample.long false) Hdir) as [Hres _].
  split; [exact (Hres "daytrade")|exact (Hres "trades")].
Defined.

(** X11: the dictionary passed as [results] may be the accumulator's own
    ([accumulate(..., results=accumulator.results)]): when the trade goes the
    way of the position, every value of the accumulator's results is then
    doubled. *)
Theorem own_results_are_doubled (quantity0 price0 : Qc) (date0 : Date)
    (w : World) :
  (0 ≤ quantity (self w) ∧ 0 ≤ quantity0)
  ∨ (quantity (self w) ≤ 0 ∧ quantity0 ≤ 0) →
  let w' := (accumulate quantity0 price0 date0 (Some (results (self w))) w).2 in
  ∀ key, results_of w' !! key = (λ value, value + value) <$> results_of w !! key.
Proof.
  intros Hdir. simpl. intros key.
  destruct (accumulate_not_opposing quantity0 price0 date0
              (Some (results (self w))) w
              (same_sign_not_opposing _ _ (same_sign_weak_direction _ _ Hdir)))
    as [Hres _].
  rewrite (Hres key). unfold results_of.
  by destruct ((heap w !!! results (self w)) !! key).
Qed.

Lemma own_results_are_doubled_witness :
  ((0 ≤ quantity (self Sample.seeded_daytrade) ∧ 0 ≤ Qc_of_Z 30)
   ∨ (quantity (self Sample.seeded_daytrade) ≤ 0 ∧ Qc_of_Z 30 ≤ 0))
  ∧ (let w' := (accumulate (Qc_of_Z 30) (Qc_of_Z 20) None
                  (Some (results (self Sample.seeded_daytrade)))
                  Sample.seeded_daytrade).2 in
     results_of w' !! "daytrade"
     = (λ value, value + value)
         <$> results_of Sample.seeded_daytrade !! "daytrade").
Proof.
  assert ((0 ≤ quantity (self Sample.seeded_daytrade) ∧ 0 ≤ Qc_of_Z 30)
          ∨ (quantity (self Sample.seeded_daytrade) ≤ 0 ∧ Qc_of_Z 30 ≤ 0))
    as Hdir by (left; split; vm_compute; discriminate).
  split; [exact Hdir|].
  exact (own_results_are_doubled (Qc_of_Z 30) (Qc_of_Z 20) None
           Sample.seeded_daytrade Hdir "daytrade").
Defined.



(** * Further properties of the log *)



Lemma finish_raises quantity0 price0 date0 r nq np w e :
  (finish quantity0 price0 date0 r nq np w).1 = inl e →
  let w' := (finish quantity0 price0 date0 r nq np w).2 in
  ∃ rec,
    log (self w) !! date0 = Some rec
    ∧ operations rec = None
    ∧ self w'
      = set_log (commit (self w) nq np)
          (<[date0 := set_position rec
                        (quantity (commit (self w) nq np),
                         price (commit (self w) nq np))]> (log (self w))).
Proof.
  unfold finish. destruct (logging (self w)); [|done].
  unfold log_operation_result, positioned. simpl.
  destruct (log (self w) !! date0) as [rec|]; simpl; [|done].
  destruct (operations rec) eqn:Hops; simpl; [done|].
  intros _. exists rec. by rewrite Hops.
Qed.

(** X14: a call that raises [KeyError('operations')] has already committed:
    the quantity is the sum, and the record of the date, still without
    operations, shows the committed quantity and price as its position. *)
Theorem log_failure_after_commit (quantity0 price0 : Qc) (date0 : Date)
    (results0 : option ref) (w : World) :
  (accumulate quantity0 price0 date0 results0 w).1
  = inl (KeyError (Some "operations")) →
  let w' := (accumulate quantity0 price0 date0 results0 w).2 in
  quantity (self w') = quantity (self w) + quantity0
  ∧ logged_position w' date0 = Some (quantity (self w'), price (self w'))
  ∧ log (self w') !! date0 ≫= operations = None.
Proof.
  rewrite accumulate_spec. unfold accumulate_result.
  assert (∀ r nq np w0,
            (finish quantity0 price0 date0 r nq np w0).1
            = inl (KeyError (Some "operations")) →
            let w' := (finish quantity0 price0 date0 r nq np w0).2 in
            quantity (self w') = nq
            ∧ logged_position w' date0
              = Some (quantity (self w'), price (self w'))
            ∧ log (self w') !! date0 ≫= operations = None) as Hfin.
  { intros r nq np w0 Hout. simpl.
    destruct (finish_raises _ _ _ _ _ _ _ _ Hout) as (rec & Hrec & Hops & Hself).
    unfold logged_position. rewrite Hself. simpl.
    rewrite lookup_insert_eq. simpl. by rewrite Hops. }
  destruct (opposing (quantity (self w)) quantity0).
  - destruct ((_ !!! _) !! "trades") as [t|]; [|done].
    intros Hout. by apply Hfin in Hout.
  - intros Hout. by apply Hfin in Hout.
Qed.

Lemma log_failure_after_commit_witness :
  (accumulate_call Sample.buy_10_at_100
     (accumulate_event Sample.event_2020_01_01 (Sample.flat true)).2).1
  = inl (KeyError (Some "operations"))
  ∧ (let w := (accumulate_event Sample.event_2020_01_01 (Sample.flat true)).2 in
     let w' := (accumulate (Qc_of_Z 10) (Qc_of_Z 100) (Some "2020-01-01")
                  None w).2 in
     quantity (self w') = quantity (self w) + Qc_of_Z 10
     ∧ logged_position w' (Some "2020-01-01")
       = Some (quantity (self w'), price (self w'))
     ∧ log (self w') !! Some "2020-01-01" ≫= operations = None).
Proof.
  assert ((accumulate (Qc_of_Z 10) (Qc_of_Z 100) (Some "2020-01-01") None
             (accumulate_event Sample.event_2020_01_01 (Sample.flat true)).2).1
          = inl (KeyError (Some "operations"))) as H
    by (vm_compute; reflexivity).
  split; [exact H|].
  exact (log_failure_after_commit (Qc_of_Z 10) (Qc_of_Z 100)
           (Some "2020-01-01") None
           (accumulate_event Sample.event_2020_01_01 (Sample.flat true)).2 H).
Defined.

(** * Events *)

(** [log_event] always returns: it gives the record of the date an
    ['events'] list when it has none. *)
Lemma log_event_spec event w :
  log_event event w
  = (inr tt,
     with_log w
       (<[event_date event :=
            {| position := Some (quantity (self w), price (self w));
               operations := log (self w) !! event_date event ≫= operations;
               events :=
                 Some (default [] (log (self w) !! event_date event ≫= events)
                       ++ [event_name event]) |}]> (log (self w)))).
Proof.
  unfold log_event, with_log. unfold_M. simpl.
  destruct (log (self w) !! event_date event) as [rec|] eqn:Hd; simpl.
  - destruct (decide (events rec = None)) as [Hev|Hev]; simpl.
    + unfold modify. simpl. rewrite lookup_insert_eq. simpl.
      rewrite lookup_insert_eq. simpl. rewrite Hev. simpl.
      by rewrite !insert_insert_eq.
    + rewrite Hd. simpl. rewrite lookup_insert_eq. simpl.
      destruct (events rec) as [evs|]; [|done]. simpl.
      unfold modify. simpl. by rewrite !insert_insert_eq.
  - unfold modify. simpl. rewrite lookup_insert_eq. simpl.
    rewrite lookup_insert_eq. simpl. by rewrite !insert_insert_eq.
Qed.

Lemma accumulate_event_spec event w new w1 :
  update_portfolio event (quantity (self w)) (price (self w))
    (results (self w)) w = (inr new, w1) →
  accumulate_event event w
  = let w2 := {| heap := heap w1;
                 self := set_price (set_quantity (self w1) new.1) new.2 |} in
    if logging (self w1) then log_event event w2 else (inr tt, w2).
Proof.
  intros Hup. unfold accumulate_event. unfold mbind, M_bind, gets. simpl.
  rewrite Hup. unfold modify. simpl. by destruct (logging (self w1)).
Qed.

(** X15: when the event's [update_portfolio] returns, [accumulate_event]
    returns: it commits the returned quantity and price as they are, touches
    no dictionary itself and, when logging, leaves the records of the other
    dates alone, overwrites the position in the record of the event's date,
    appends the event's name to its events and keeps its operations. *)
Theorem accumulate_event_commits (event : Event) (w w1 : World)
    (new : Qc * Qc) :
  update_portfolio event (quantity (self w)) (price (self w))
    (results (self w)) w = (inr new, w1) →
  let out := accumulate_event event w in
  out.1 = inr tt
  ∧ quantity (self out.2) = new.1
  ∧ price (self out.2) = new.2
  ∧ heap out.2 = heap w1
  ∧ (if logging (self w1)
     then
       (∀ d, d ≠ event_date event →
             log (self out.2) !! d = log (self w1) !! d)
       ∧ ∃ rec,
           log (self out.2) !! event_date event = Some rec
           ∧ position rec = Some new
           ∧ events rec
             = Some (default []
                       (log (self w1) !! event_date event ≫= events)
                     ++ [event_name event])
           ∧ operations rec
             = log (self w1) !! event_date event ≫= operations
     else log (self out.2) = log (self w1)).
Proof.
  intros Hup. simpl. rewrite (accumulate_event_spec _ _ _ _ Hup). simpl.
  destruct (logging (self w1)).
  - rewrite log_event_spec. simpl. repeat (split; [done|]). split.
    + intros d Hd. by rewrite lookup_insert_ne.
    + eexists. rewrite lookup_insert_eq. split; [done|]. simpl.
      by destruct new.
  - simpl. by destruct (self w1).
Qed.

Lemma accumulate_event_commits_witness :
  update_portfolio Sample.event_2020_01_01
    (quantity (self (Sample.long true))) (price (self (Sample.long true)))
    (results (self (Sample.long true))) (Sample.long true)
  = (inr (quantity (self (Sample.long true)), price (self (Sample.long true))),
     Sample.long true)
  ∧ (let out := accumulate_event Sample.event_2020_01_01 (Sample.long true) in
     out.1 = inr tt
     ∧ quantity (self out.2) = quantity (self (Sample.long true))
     ∧ price (self out.2) = price (self (Sample.long true))).
Proof.
  split; [reflexivity|].
  destruct (accumulate_event_commits Sample.event_2020_01_01
              (Sample.long true) (Sample.long true)
              (quantity (self (Sample.long true)),
               price (self (Sample.long true))) eq_refl)
    as (H1 & H2 & H3 & _).
  split; [exact H1|]. split; [exact H2|exact H3].
Defined.

(** X16: with logging on, an event of a date that the log does not have
    yet makes a record without ['operations']; a call of [accumulate] with
    that date then raises [KeyError('operations')], whatever is traded. *)
Theorem accumulate_after_event_raises (event : Event) (w w1 : World)
    (new : Qc * Qc) (quantity0 price0 : Qc) :
  update_portfolio event (quantity (self w)) (price (self w))
    (results (self w)) w = (inr new, w1) →
  logging (self w1) = true →
  log (self w1) !! event_date event = None →
  (accumulate quantity0 price0 (event_date event) None
     (accumulate_event event w).2).1
  = inl (KeyError (Some "operations")).
Proof.
  intros Hup Hlog Hnew.
  rewrite (accumulate_event_spec _ _ _ _ Hup). simpl.
  rewrite Hlog, log_event_spec. simpl.
  match goal with |- (accumulate _ _ _ _ ?w2).1 = _ =>
    destruct (accumulate_default_spec quantity0 price0 (event_date event) w2)
      as [h ->] end.
  unfold finish. simpl. rewrite Hlog.
  unfold log_operation_result, positioned. simpl.
  rewrite lookup_insert_eq. simpl. by rewrite Hnew.
Qed.

Lemma accumulate_after_event_raises_witness :
  update_portfolio Sample.event_2020_01_01
    (quantity (self (Sample.flat true))) (price (self (Sample.flat true)))
    (results (self (Sample.flat true))) (Sample.flat true)
  = (inr (quantity (self (Sample.flat true)), price (self (Sample.flat true))),
     Sample.flat true)
  ∧ logging (self (Sample.flat true)) = true
  ∧ log (self (Sample.flat true)) !! event_date Sample.event_2020_01_01 = None
  ∧ (accumulate (Qc_of_Z 10) (Qc_of_Z 100)
       (event_date Sample.event_2020_01_01) None
       (accumulate_event Sample.event_2020_01_01 (Sample.flat true)).2).1
    = inl (KeyError (Some "operations")).
Proof.
  split; [reflexivity|]. split; [reflexivity|]. split; [reflexivity|].
  exact (accumulate_after_event_raises Sample.event_2020_01_01
           (Sample.flat true) (Sample.flat true)
           (quantity (self (Sample.flat true)),
            price (self (Sample.flat true)))
           (Qc_of_Z 10) (Qc_of_Z 100) eq_refl eq_refl eq_refl).
Defined.

(** * Further properties of the proration *)

Lemma prorate_commissions_by_position_spec container operation :
  Prorate.prorate_commissions_by_position container operation
  = inr (Prorate.prorated container operation).
Proof.
  unfold Prorate.prorate_commissions_by_position, Prorate.prorated.
  destruct (bool_decide (Prorate.volume operation ≠ 0)
            && bool_decide (Prorate.container_volume container ≠ 0)) eqn:Hb;
    [|done].
  apply andb_true_iff in Hb as [_ Hc]. apply bool_decide_eq_true_1 in Hc.
  unfold truediv at 1. rewrite decide_False by done.
  destruct (prorate_items_spec
              (map_to_list (Prorate.container_commissions container))
              (Prorate.volume operation / Prorate.container_volume container
               * Qc_of_Z 100)
              (Prorate.commissions operation)
              (NoDup_fst_map_to_list _)) as (commissions' & -> & Hlookup).
  do 2 f_equal. apply map_eq. intros key.
  rewrite Hlookup, list_to_map_to_list, lookup_union, lookup_fmap.
  destruct (Prorate.container_commissions container !! key); simpl.
  - by destruct (Prorate.commissions operation !! key).
  - by destruct (Prorate.commissions operation !! key).
Qed.

Lemma for_each_update_total {A} (f : A → exn + A) (g : A → A) l :
  (∀ x, f x = inr (g x)) → Prorate.for_each_update f l = inr (g <$> l).
Proof.
  intros Hf. induction l as [|x l IH]; simpl; [done|].
  by rewrite Hf, IH.
Qed.

Lemma prorate_position_spec container position :
  Prorate.prorate_position container position
  = inr (Prorate.prorated_position container position).
Proof.
  unfold Prorate.prorate_position, Prorate.prorated_position.
  destruct (Prorate.update_position position).
  - by rewrite prorate_commissions_by_position_spec.
  - by rewrite (for_each_update_total _ (Prorate.prorated container))
      by apply prorate_commissions_by_position_spec.
Qed.

(** X19: prorating an operation again changes nothing: the commissions set
    do not depend on the commissions that the operation had. *)
Theorem prorate_twice (container : Prorate.Container)
    (operation : Prorate.Operation) :
  ∃ operation',
    Prorate.prorate_commissions_by_position container operation
    = inr operation'
    ∧ Prorate.prorate_commissions_by_position container operation'
      = inr operation'.
Proof.
  eexists. split; [apply prorate_commissions_by_position_spec|].
  rewrite prorate_commissions_by_position_spec. f_equal.
  unfold Prorate.prorated.
  destruct (bool_decide (Prorate.volume operation ≠ 0)
            && bool_decide (Prorate.container_volume container ≠ 0)) eqn:Hb;
    simpl; rewrite Hb; [|done].
  f_equal. apply map_eq. intros key. rewrite !lookup_union, lookup_fmap.
  destruct (Prorate.container_commissions container !! key); simpl.
  - by destruct (Prorate.commissions operation !! key).
  - by destruct (Prorate.commissions operation !! key).
Qed.

(** X20: [prorate_commissions] never raises, and it treats each position by
    its flag: a position with [update_position] gets the commissions itself
    and its operations are left as they are; otherwise each of its operations
    gets the commissions and the position's own are left as they are. *)
Theorem prorate_commissions_by_flag (container : Prorate.Container)
    (positions : list (list Prorate.Position)) :
  ∃ positions',
    Prorate.prorate_commissions container positions = inr positions'
    ∧ Forall2
        (Forall2 (λ position position',
           Prorate.update_position position'
           = Prorate.update_position position
           ∧ if Prorate.update_position position
             then
               Prorate.position_operations position'
               = Prorate.position_operations position
               ∧ Prorate.prorate_commissions_by_position container
                   (Prorate.position_self position)
                 = inr (Prorate.position_self position')
             else
               Prorate.position_self position'
               = Prorate.position_self position
               ∧ Prorate.for_each_update
                   (Prorate.prorate_commissions_by_position container)
                   (Prorate.position_operations position)
                 = inr (Prorate.position_operations position')))
        positions positions'.
Proof.
  exists (map (map (Prorate.prorated_position container)) positions). split.
  - unfold Prorate.prorate_commissions.
    apply (for_each_update_total _
             (map (Prorate.prorated_position container))). intros group.
    apply (for_each_update_total _ (Prorate.prorated_position container)),
      prorate_position_spec.
  - apply Forall2_fmap_r, Forall_Forall2_diag, Forall_true. intros group.
    apply Forall2_fmap_r, Forall_Forall2_diag, Forall_true. intros position.
    unfold Prorate.prorated_position.
    destruct position as [[|] own operations]; simpl.
    + split; [done|]. split; [done|].
      apply prorate_commissions_by_position_spec.
    + split; [done|]. split; [done|].
      apply (for_each_update_total _ (Prorate.prorated container)),
        prorate_commissions_by_position_spec.
Qed.

(** * The keys of the results, again *)

(** X21: the keys of the accumulator's results are stable: a key that the
    results have is still there after any sequence of calls, returning or
    raising. *)
Theorem result_keys_persist (key : string) (calls : list Call) (w : World) :
  key ∈ dom (results_of w) → key ∈ dom (results_of (run calls w)).
Proof. apply run_keeps_key. Qed.

Lemma result_keys_persist_witness :
  "daytrade" ∈ dom (results_of Sample.seeded_daytrade)
  ∧ "daytrade"
    ∈ dom (results_of (run [Sample.sell_40_at_15; Sample.buy_30_at_20]
                         Sample.seeded_daytrade)).
Proof.
  assert ("daytrade" ∈ dom (results_of Sample.seeded_daytrade)) as H
    by (apply elem_of_dom; eexists; vm_compute; reflexivity).
  split; [exact H|].
  exact (result_keys_persist "daytrade"
           [Sample.sell_40_at_15; Sample.buy_30_at_20]
           Sample.seeded_daytrade H).
Defined.
